(** * The slcan bus driver (can/interfaces/slcan.py)

    A shallow embedding of [slcanBus]: the line framer [_read], the frame
    codec [send] / [_recv_internal], the DLC codec, the session commands
    and the version query, together with the fragment of the Python run
    time and of the serial port they rely on. *)

From Stdlib Require Import Strings.String Strings.Ascii Strings.Byte.
From Stdlib Require Import ZArith NArith List Bool Lia.
Import ListNotations.

Local Open Scope Z_scope.

(* ===================================================================== *)
(** * Outcomes of a call *)
(* ===================================================================== *)

(** The exception classes that occur in the driver.  The Unicode errors
    are subclasses of [ValueError] in Python; they are kept apart here.
    [CanInitializationError] is raised by [error_check] with the message
    of the exception it caught, which is recorded as its cause. *)
Inductive exn : Type :=
| ValueError
| IndexError
| UnicodeDecodeError
| UnicodeEncodeError
| PortNotOpenError
| CanInterfaceNotImplementedError
| CanOperationError (message : string)
| CanInitializationError (cause : exn).

(** A call returns, raises, or never comes back ([Hang]: the poll loop of
    [_read] waiting without a deadline for bytes that never arrive). *)
Inductive result (A : Type) : Type :=
| Ok (a : A)
| Raise (e : exn)
| Hang.

Arguments Ok {A} a.
Arguments Raise {A} e.
Arguments Hang {A}.

Definition rbind {A B} (r : result A) (k : A -> result B) : result B :=
  match r with
  | Ok a => k a
  | Raise e => Raise e
  | Hang => Hang
  end.

Declare Scope py_scope.
Delimit Scope py_scope with py.
Notation "x <- r ;; k" := (rbind r (fun x => k))
  (at level 61, r at next level, right associativity) : py_scope.

(* ===================================================================== *)
(** * The Python run time used by the driver *)
(* ===================================================================== *)

(** A [str] is a sequence of Unicode code points, a [bytes] or
    [bytearray] value a sequence of bytes. *)
Abbreviation codepoint := N (only parsing).
Definition str := list codepoint.
Definition bytes := list byte.

Definition ord (a : ascii) : codepoint := N_of_ascii a.
Arguments ord : simpl never.

(** A string literal of the source. *)
Definition lit (s : string) : str := map ord (list_ascii_of_string s).

Definition is_ascii (c : codepoint) : bool := (c <? 128)%N.

Definition str_eqb (s t : str) : bool :=
  if list_eq_dec N.eq_dec s t then true else false.

(** ** Indexing and slicing *)

Definition len {A} (s : list A) : Z := Z.of_nat (length s).

(** [s[i]]: negative indices count from the end, an index out of range
    raises [IndexError]. *)
Definition index {A} (s : list A) (i : Z) : result A :=
  let j := if i <? 0 then i + len s else i in
  if j <? 0 then Raise IndexError
  else match nth_error s (Z.to_nat j) with
       | Some a => Ok a
       | None => Raise IndexError
       end.

(** A slice bound is clamped into [0 .. len s]. *)
Definition clamp (n i : Z) : Z :=
  if i <? 0 then Z.max 0 (i + n) else Z.min i n.

(** [s[a:b]], [s[:b]] and [s[a:]]. *)
Definition slice {A} (s : list A) (a b : Z) : list A :=
  let lo := clamp (len s) a in
  let hi := clamp (len s) b in
  firstn (Z.to_nat (hi - lo)) (skipn (Z.to_nat lo) s).

Definition slice_to {A} (s : list A) (b : Z) : list A := slice s 0 b.

Definition slice_from {A} (s : list A) (a : Z) : list A :=
  skipn (Z.to_nat (clamp (len s) a)) s.

(** ** Character classes

    The tables of digits, decimal digits and white space are those of
    Unicode 14.0, which CPython 3.11 carries; a table lists ranges of
    code points, bounds included.  The case mapping is reproduced for
    U+0000 .. U+00FF, and a character above U+00FF is taken to be
    caseless: the driver applies [upper] to the hexadecimal text of
    bytes and to the one character of a length code, where no case
    mapping of a character above U+00FF gives a digit or a letter
    [A] .. [E]. *)

Definition in_ranges (table : list (N * N)) (c : codepoint) : bool :=
  existsb (fun r => (fst r <=? c) && (c <=? snd r))%N table.

(** [str.upper()], one character: the result can be two characters
    (U+00DF) or leave the block (U+00B5, U+00FF). *)
Definition upper_char (c : codepoint) : str :=
  (if (97 <=? c) && (c <=? 122) then [c - 32]
   else if c =? 181 then [924]
   else if c =? 223 then [83; 83]
   else if (224 <=? c) && (c <=? 254) && negb (c =? 247) then [c - 32]
   else if c =? 255 then [376]
   else [c])%N.

Definition upper (s : str) : str := flat_map upper_char s.

(** The characters whose numeric type is Digit or Decimal
    ([Py_UNICODE_ISDIGIT]): the decimal digits of all scripts, and
    superscript, subscript, circled and other digits that are not
    decimal. *)
Definition digit_ranges : list (N * N) :=
  [ (48, 57); (178, 179); (185, 185); (1632, 1641); (1776, 1785);
    (1984, 1993); (2406, 2415); (2534, 2543); (2662, 2671); (2790, 2799);
    (2918, 2927); (3046, 3055); (3174, 3183); (3302, 3311); (3430, 3439);
    (3558, 3567); (3664, 3673); (3792, 3801); (3872, 3881); (4160, 4169);
    (4240, 4249); (4969, 4977); (6112, 6121); (6160, 6169); (6470, 6479);
    (6608, 6618); (6784, 6793); (6800, 6809); (6992, 7001); (7088, 7097);
    (7232, 7241); (7248, 7257); (8304, 8304); (8308, 8313); (8320, 8329);
    (9312, 9320); (9332, 9340); (9352, 9360); (9450, 9450); (9461, 9469);
    (9471, 9471); (10102, 10110); (10112, 10120); (10122, 10130);
    (42528, 42537); (43216, 43225); (43264, 43273); (43472, 43481);
    (43504, 43513); (43600, 43609); (44016, 44025); (65296, 65305);
    (66720, 66729); (68160, 68163); (68912, 68921); (69216, 69224);
    (69714, 69722); (69734, 69743); (69872, 69881); (69942, 69951);
    (70096, 70105); (70384, 70393); (70736, 70745); (70864, 70873);
    (71248, 71257); (71360, 71369); (71472, 71481); (71904, 71913);
    (72016, 72025); (72784, 72793); (73040, 73049); (73120, 73129);
    (92768, 92777); (92864, 92873); (93008, 93017); (120782, 120831);
    (123200, 123209); (123632, 123641); (125264, 125273); (127232, 127242);
    (130032, 130041) ]%N.

(** [str.isdigit()]: true for a non-empty string of such characters. *)
Definition isdigit_char (c : codepoint) : bool := in_ranges digit_ranges c.

Definition isdigit (s : str) : bool :=
  match s with
  | [] => false
  | _ => forallb isdigit_char s
  end.

(** The decimal digits (general category Nd).  Each range is a run of
    the digits 0 to 9 in order, or several such runs one after the other
    (the mathematical digits, U+1D7CE .. U+1D7FF). *)
Definition decimal_ranges : list (N * N) :=
  [ (48, 57); (1632, 1641); (1776, 1785); (1984, 1993); (2406, 2415);
    (2534, 2543); (2662, 2671); (2790, 2799); (2918, 2927); (3046, 3055);
    (3174, 3183); (3302, 3311); (3430, 3439); (3558, 3567); (3664, 3673);
    (3792, 3801); (3872, 3881); (4160, 4169); (4240, 4249); (6112, 6121);
    (6160, 6169); (6470, 6479); (6608, 6617); (6784, 6793); (6800, 6809);
    (6992, 7001); (7088, 7097); (7232, 7241); (7248, 7257); (42528, 42537);
    (43216, 43225); (43264, 43273); (43472, 43481); (43504, 43513);
    (43600, 43609); (44016, 44025); (65296, 65305); (66720, 66729);
    (68912, 68921); (69734, 69743); (69872, 69881); (69942, 69951);
    (70096, 70105); (70384, 70393); (70736, 70745); (70864, 70873);
    (71248, 71257); (71360, 71369); (71472, 71481); (71904, 71913);
    (72016, 72025); (72784, 72793); (73040, 73049); (73120, 73129);
    (92768, 92777); (92864, 92873); (93008, 93017); (120782, 120831);
    (123200, 123209); (123632, 123641); (125264, 125273);
    (130032, 130041) ]%N.

(** [Py_UNICODE_TODECIMAL]: the value of a decimal digit. *)
Definition decimal_value (c : codepoint) : option N :=
  match find (fun r => (fst r <=? c) && (c <=? snd r))%N decimal_ranges with
  | Some r => Some ((c - fst r) mod 10)%N
  | None => None
  end.

(** White space of the C locale ([Py_ISSPACE]). *)
Definition is_space (c : codepoint) : bool :=
  ((9 <=? c) && (c <=? 13) || (c =? 32))%N.

(** Unicode white space ([Py_UNICODE_ISSPACE], [str.isspace()]). *)
Definition space_ranges : list (N * N) :=
  [ (9, 13); (28, 32); (133, 133); (160, 160); (5760, 5760); (8192, 8202);
    (8232, 8233); (8239, 8239); (8287, 8287); (12288, 12288) ]%N.

Definition is_unicode_space (c : codepoint) : bool :=
  in_ranges space_ranges c.

(** ** [int(s, base)] *)

(** [_PyLong_DigitValue]: 37 for a character that is no digit in any
    base. *)
Definition digit_value (c : codepoint) : N :=
  (if (48 <=? c) && (c <=? 57) then c - 48
   else if (97 <=? c) && (c <=? 122) then c - 87
   else if (65 <=? c) && (c <=? 90) then c - 55
   else 37)%N.

(** A string that is not pure ASCII is first rewritten
    ([_PyUnicode_TransformDecimalAndSpaceToASCII]): a character below
    U+007F stays, Unicode white space becomes a blank, a Unicode decimal
    digit its ASCII digit, and the string is cut at the first other
    character, which becomes a question mark. *)
Fixpoint to_ascii_digits (s : str) : str :=
  match s with
  | [] => []
  | c :: r =>
      if (c <? 127)%N then c :: to_ascii_digits r
      else if is_unicode_space c then 32%N :: to_ascii_digits r
      else match decimal_value c with
           | Some d => (48 + d)%N :: to_ascii_digits r
           | None => [63%N]
           end
  end.

Fixpoint lstrip (s : str) : str :=
  match s with
  | c :: r => if is_space c then lstrip r else s
  | [] => []
  end.

(** The digits of a literal: digits below [base] and single underscores
    between them.  Returns the value read, the number of digits, whether
    the last character read was an underscore, and what is left; [None]
    for two underscores in a row. *)
Fixpoint scan_digits (base : N) (s : str) (acc : N) (count : nat)
    (prev_underscore : bool) : option (N * nat * bool * str) :=
  match s with
  | [] => Some (acc, count, prev_underscore, [])
  | c :: r =>
      if (c =? ord "_")%N then
        if prev_underscore then None
        else scan_digits base r acc count true
      else if (digit_value c <? base)%N then
        scan_digits base r (acc * base + digit_value c)%N (S count) false
      else Some (acc, count, prev_underscore, s)
  end.

(** The sign in front of a literal. *)
Definition split_sign (s : str) : Z * str :=
  match s with
  | c :: r =>
      if (c =? ord "+")%N then (1, r)
      else if (c =? ord "-")%N then (-1, r)
      else (1, s)
  | [] => (1, s)
  end.

(** The prefix [0x] or [0X] of a literal in base 16, and one underscore
    after it. *)
Definition skip_prefix (base : N) (s : str) : str :=
  match s with
  | c :: x :: r =>
      if (c =? ord "0")%N && (base =? 16)%N
         && ((x =? ord "x") || (x =? ord "X"))%N then
        match r with
        | u :: r' => if (u =? ord "_")%N then r' else r
        | [] => r
        end
      else s
  | _ => s
  end.

(** The number of digits that [int] converts in a base that is no power
    of two ([sys.get_int_max_str_digits()], as the interpreter starts). *)
Definition max_str_digits : Z := 4300.

(** [(base & (base - 1)) == 0]. *)
Definition binary_base (base : N) : bool := (N.land base (base - 1) =? 0)%N.

(** [int(s, base)] for [base] 10 or 16 ([PyLong_FromUnicodeObject] and
    [PyLong_FromString]): white space around the literal, a sign, for base
    16 a prefix [0x] or [0X] with one underscore allowed after it, no
    leading or trailing underscore, at least one digit, and in base 10
    no more than [max_str_digits] digits. *)
Definition int (s : str) (base : N) : result Z :=
  let s0 := if forallb is_ascii s then s else to_ascii_digits s in
  let '(sign, s2) := split_sign (lstrip s0) in
  let s3 := skip_prefix base s2 in
  match s3 with
  | [] => Raise ValueError
  | c :: _ =>
      if (c =? ord "_")%N then Raise ValueError
      else
        match scan_digits base s3 0%N 0%nat false with
        | None => Raise ValueError
        | Some (v, count, prev_underscore, rest) =>
            if prev_underscore then Raise ValueError
            else if negb (binary_base base)
                    && (max_str_digits <? Z.of_nat count)
            then Raise ValueError
            else match count with
                 | O => Raise ValueError
                 | S _ =>
                     match lstrip rest with
                     | [] => Ok (sign * Z.of_N v)
                     | _ :: _ => Raise ValueError
                     end
                 end
        end
  end.

(** ** Formatting integers *)

Definition digit_char (d : N) : codepoint :=
  (if d <? 10 then 48 + d else 55 + d)%N.

(** The digits of [n] in [base], most significant first; [fuel] bounds
    their number. *)
Fixpoint digits_fuel (base : N) (fuel : nat) (n : N) : list N :=
  match fuel with
  | O => []
  | S f =>
      if (n / base =? 0)%N then [(n mod base)%N]
      else digits_fuel base f (n / base)%N ++ [(n mod base)%N]
  end.

Definition digits (base n : N) : list N :=
  digits_fuel base (S (N.to_nat (N.log2 n))) n.

(** [format(n, "0<width>X")] and [format(n, "0<width>d")]: the sign, then
    the digits in upper case padded with zeros; the sign counts in the
    width. [width] 0 is the format without a width. *)
Definition format_int (base : N) (width : nat) (n : Z) : str :=
  let ds := map digit_char (digits base (Z.abs_N n)) in
  let sign := if n <? 0 then [45%N] else [] in
  sign ++ repeat 48%N (width - length sign - length ds) ++ ds.

Definition format_X (width : nat) (n : Z) : str := format_int 16 width n.
Definition format_d (width : nat) (n : Z) : str := format_int 10 width n.

(** ** Bytes and hexadecimal text *)

Definition byte_of_N (n : N) : byte :=
  match Byte.of_N n with
  | Some b => b
  | None => x00
  end.

Definition hex_char_lower (d : N) : codepoint :=
  (if d <? 10 then 48 + d else 87 + d)%N.

(** [bytes.hex()]: two lower-case digits for each byte. *)
Definition hex (data : bytes) : str :=
  flat_map (fun b => [hex_char_lower (Byte.to_N b / 16);
                      hex_char_lower (Byte.to_N b mod 16)]) data.

(** [bytearray.fromhex(s)]: white space is skipped in front of a byte but
    not inside one; anything but two hexadecimal digits there (a character
    that is not ASCII included) raises [ValueError]. *)
Fixpoint fromhex (s : str) : result bytes :=
  match s with
  | [] => Ok []
  | c :: r =>
      if is_space c then fromhex r
      else
        match r with
        | [] => Raise ValueError
        | d :: r' =>
            if (digit_value c <? 16)%N && (digit_value d <? 16)%N then
              rbind (fromhex r')
                (fun tl => Ok (byte_of_N (digit_value c * 16 + digit_value d) :: tl))
            else Raise ValueError
        end
  end.

(** ** UTF-8 *)

Definition continuation (b : N) : bool := ((128 <=? b) && (b <=? 191))%N.

(** [bytes.decode()]: strict UTF-8; an overlong form, a surrogate, a value
    above U+10FFFF or a cut sequence raises [UnicodeDecodeError]. *)
Fixpoint decode (bs : bytes) : result str :=
  match bs with
  | [] => Ok []
  | b0 :: r =>
      let n0 := Byte.to_N b0 in
      if (n0 <? 128)%N then rbind (decode r) (fun s => Ok (n0 :: s))
      else
        match r with
        | [] => Raise UnicodeDecodeError
        | b1 :: r1 =>
            let n1 := Byte.to_N b1 in
            if ((194 <=? n0) && (n0 <=? 223))%N then
              if continuation n1 then
                rbind (decode r1)
                  (fun s => Ok (((n0 - 192) * 64 + (n1 - 128))%N :: s))
              else Raise UnicodeDecodeError
            else
              match r1 with
              | [] => Raise UnicodeDecodeError
              | b2 :: r2 =>
                  let n2 := Byte.to_N b2 in
                  if ((224 <=? n0) && (n0 <=? 239))%N then
                    if continuation n1 && continuation n2
                       && negb ((n0 =? 224) && (n1 <? 160))%N
                       && negb ((n0 =? 237) && (160 <=? n1))%N then
                      rbind (decode r2)
                        (fun s => Ok (((n0 - 224) * 4096 + (n1 - 128) * 64
                                       + (n2 - 128))%N :: s))
                    else Raise UnicodeDecodeError
                  else
                    match r2 with
                    | [] => Raise UnicodeDecodeError
                    | b3 :: r3 =>
                        let n3 := Byte.to_N b3 in
                        if ((240 <=? n0) && (n0 <=? 244))%N
                           && continuation n1 && continuation n2
                           && continuation n3
                           && negb ((n0 =? 240) && (n1 <? 144))%N
                           && negb ((n0 =? 244) && (144 <=? n1))%N then
                          rbind (decode r3)
                            (fun s => Ok (((n0 - 240) * 262144
                                           + (n1 - 128) * 4096
                                           + (n2 - 128) * 64
                                           + (n3 - 128))%N :: s))
                        else Raise UnicodeDecodeError
                    end
              end
        end
  end.

(** [str.encode()]: UTF-8; a surrogate raises [UnicodeEncodeError]. *)
Definition encode_char (c : codepoint) : result bytes :=
  (if c <? 128 then Ok [byte_of_N c]
   else if c <? 2048 then
     Ok [byte_of_N (192 + c / 64); byte_of_N (128 + c mod 64)]
   else if (55296 <=? c) && (c <=? 57343) then Raise UnicodeEncodeError
   else if c <? 65536 then
     Ok [byte_of_N (224 + c / 4096); byte_of_N (128 + (c / 64) mod 64);
         byte_of_N (128 + c mod 64)]
   else if c <? 1114112 then
     Ok [byte_of_N (240 + c / 262144); byte_of_N (128 + (c / 4096) mod 64);
         byte_of_N (128 + (c / 64) mod 64); byte_of_N (128 + c mod 64)]
   else Raise UnicodeEncodeError)%N.

Fixpoint encode (s : str) : result bytes :=
  match s with
  | [] => Ok []
  | c :: r =>
      rbind (encode_char c) (fun bs => rbind (encode r) (fun tl => Ok (bs ++ tl)))
  end.

(** ['00' * n]: a string repeated, empty for [n <= 0]. *)
Definition str_mul (s : str) (n : Z) : str :=
  concat (repeat s (Z.to_nat n)).

(** [min] of a sequence; the empty sequence raises [ValueError]. *)
Definition py_min (l : list Z) : result Z :=
  match l with
  | [] => Raise ValueError
  | x :: r => Ok (fold_left Z.min r x)
  end.

(** [str.split(sep)] for a separator of one character. *)
Fixpoint split (sep : codepoint) (s : str) : list str :=
  match s with
  | [] => [[]]
  | c :: r =>
      if (c =? sep)%N then [] :: split sep r
      else match split sep r with
           | w :: ws => (c :: w) :: ws
           | [] => [[c]]
           end
  end.

(* ===================================================================== *)
(** * The serial port *)
(* ===================================================================== *)

(** The port object of the serial library, seen from the driver: whether
    it is open, the bytes written to the line so far (oldest first), and
    what the line will deliver: [incoming] lists, poll after poll, the
    bytes that [in_waiting] finds (an empty entry is a poll that finds
    nothing). *)
Record Serial : Type := {
  is_open : bool;
  written : bytes;
  incoming : list bytes;
  write_timeout : option Z
}.

Definition set_is_open (v : bool) (p : Serial) : Serial :=
  {| is_open := v; written := written p; incoming := incoming p;
     write_timeout := write_timeout p |}.
Definition set_written (v : bytes) (p : Serial) : Serial :=
  {| is_open := is_open p; written := v; incoming := incoming p;
     write_timeout := write_timeout p |}.
Definition set_incoming (v : list bytes) (p : Serial) : Serial :=
  {| is_open := is_open p; written := written p; incoming := v;
     write_timeout := write_timeout p |}.
Definition set_write_timeout (v : option Z) (p : Serial) : Serial :=
  {| is_open := is_open p; written := written p; incoming := incoming p;
     write_timeout := v |}.

(* ===================================================================== *)
(** * Messages and bit timings *)
(* ===================================================================== *)

(** Modelled from the spec: the [Message] class of the can package, which
    is not among the sources; the fields are those of the data model. *)
Record Message : Type := {
  timestamp : Z;
  arbitration_id : Z;
  is_extended_id : bool;
  is_remote_frame : bool;
  is_fd : bool;
  bitrate_switch : bool;
  dlc : Z;
  data : bytes;
  channel : option str
}.

(** Modelled from the spec: the constructor call of [_recv_internal].  No
    data ([None]) and a remote frame give the empty payload; the channel
    is not passed. *)
Definition new_Message (arbitration_id : Z) (is_extended_id : bool)
    (timestamp : Z) (is_remote_frame is_fd bitrate_switch : bool) (dlc : Z)
    (data : option bytes) : Message :=
  {| timestamp := timestamp;
     arbitration_id := arbitration_id;
     is_extended_id := is_extended_id;
     is_remote_frame := is_remote_frame;
     is_fd := is_fd;
     bitrate_switch := bitrate_switch;
     dlc := dlc;
     data := match data with
             | Some d => if is_remote_frame then [] else d
             | None => []
             end;
     channel := None |}.

(** Modelled from the spec: the classical bit timing of the can package,
    two register values and the clock they are meant for. *)
Record BitTiming : Type := {
  f_clock : Z;
  btr0 : Z;
  btr1 : Z
}.

(** Modelled from the spec: the FD bit timing of the can package, a
    nominal and a data quadruple. *)
Record BitTimingFd : Type := {
  fd_f_clock : Z;
  nom_brp : Z; nom_tseg1 : Z; nom_tseg2 : Z; nom_sjw : Z;
  data_brp : Z; data_tseg1 : Z; data_tseg2 : Z; data_sjw : Z
}.

(** The [timing] argument of the constructor, by its run-time type. *)
Inductive timing_arg : Type :=
| NoTiming
| Classical (t : BitTiming)
| Fd (t : BitTimingFd).

(* ===================================================================== *)
(** * The bus object and its state monad *)
(* ===================================================================== *)

(** The attributes of a [slcanBus].  [_is_shutdown] belongs to the base
    class; [wall_clock] is the reading [time.time()] gives, kept with the
    state. *)
Record slcanBus : Type := {
  _listen_only : bool;
  serialPortOrig : Serial;
  _buffer : bytes;
  _is_shutdown : bool;
  wall_clock : Z
}.

Definition with_port (f : Serial -> Serial) (b : slcanBus) : slcanBus :=
  {| _listen_only := _listen_only b;
     serialPortOrig := f (serialPortOrig b);
     _buffer := _buffer b;
     _is_shutdown := _is_shutdown b;
     wall_clock := wall_clock b |}.
Definition with_buffer (v : bytes) (b : slcanBus) : slcanBus :=
  {| _listen_only := _listen_only b;
     serialPortOrig := serialPortOrig b;
     _buffer := v;
     _is_shutdown := _is_shutdown b;
     wall_clock := wall_clock b |}.
Definition with_is_shutdown (v : bool) (b : slcanBus) : slcanBus :=
  {| _listen_only := _listen_only b;
     serialPortOrig := serialPortOrig b;
     _buffer := _buffer b;
     _is_shutdown := v;
     wall_clock := wall_clock b |}.

(** A method: it runs on the bus, changes it, and returns, raises or
    hangs.  What was changed before an exception stays changed. *)
Definition M (A : Type) : Type := slcanBus -> result A * slcanBus.

Definition ret {A} (a : A) : M A := fun b => (Ok a, b).
Definition raise {A} (e : exn) : M A := fun b => (Raise e, b).
Definition lift {A} (r : result A) : M A := fun b => (r, b).
Definition bind {A B} (m : M A) (k : A -> M B) : M B :=
  fun b =>
    match m b with
    | (Ok a, b') => k a b'
    | (Raise e, b') => (Raise e, b')
    | (Hang, b') => (Hang, b')
    end.
Definition gets {A} (f : slcanBus -> A) : M A := fun b => (Ok (f b), b).
Definition modify (f : slcanBus -> slcanBus) : M unit :=
  fun b => (Ok tt, f b).

Declare Scope bus_scope.
Delimit Scope bus_scope with bus.
Notation "x <-- m ;; k" := (bind m (fun x => k))
  (at level 61, m at next level, right associativity) : bus_scope.
Notation "m ;;; k" := (bind m (fun _ => k))
  (at level 61, right associativity) : bus_scope.
Local Open Scope bus_scope.

(** Modelled from the spec: the [error_check] context manager of the can
    package.  A failure inside the block surfaces as an operation error
    carrying the message given. *)
Definition error_check {A} (error_message : string) (m : M A) : M A :=
  fun b =>
    match m b with
    | (Raise _, b') => (Raise (CanOperationError error_message), b')
    | r => r
    end.

(** Modelled from the spec: [error_check] as the constructor uses it, where
    a failure surfaces as an initialization error. *)
Definition error_check_init {A} (m : M A) : M A :=
  fun b =>
    match m b with
    | (Raise e, b') => (Raise (CanInitializationError e), b')
    | r => r
    end.

(** ** The port operations the driver calls *)

(** [write], [flush], [in_waiting] and [reset_input_buffer] raise on a
    port that is not open. *)
Definition port_write (d : bytes) : M unit :=
  fun b =>
    if is_open (serialPortOrig b)
    then (Ok tt, with_port (fun p => set_written (written p ++ d) p) b)
    else (Raise PortNotOpenError, b).

Definition port_flush : M unit :=
  fun b =>
    if is_open (serialPortOrig b) then (Ok tt, b)
    else (Raise PortNotOpenError, b).

Definition port_in_waiting : M Z :=
  fun b =>
    if is_open (serialPortOrig b)
    then (Ok (len (hd [] (incoming (serialPortOrig b)))), b)
    else (Raise PortNotOpenError, b).

(** [read(size)] with [size] the count [in_waiting] gave: the bytes
    waiting, which leave the line. *)
Definition port_read (size : Z) : M bytes :=
  fun b =>
    if is_open (serialPortOrig b)
    then (Ok (slice_to (hd [] (incoming (serialPortOrig b))) size),
          with_port (fun p => set_incoming (tl (incoming p)) p) b)
    else (Raise PortNotOpenError, b).

Definition port_reset_input_buffer : M unit :=
  fun b =>
    if is_open (serialPortOrig b)
    then (Ok tt, with_port (set_incoming (tl (incoming (serialPortOrig b)))) b)
    else (Raise PortNotOpenError, b).

(** Closing a port is always possible. *)
Definition port_close : M unit :=
  modify (with_port (set_is_open false)).

(** The setter of [write_timeout] refuses a negative duration. *)
Definition port_set_write_timeout (t : option Z) : M unit :=
  match t with
  | Some d =>
      if d <? 0 then raise ValueError
      else modify (with_port (set_write_timeout t))
  | None => modify (with_port (set_write_timeout t))
  end.

(** [time.sleep]: nothing happens on the bus; a poll that found nothing
    is over. *)
Definition sleep : M unit :=
  modify (with_port (fun p =>
    match incoming p with
    | [] :: rest => set_incoming rest p
    | _ => p
    end)).

(* ===================================================================== *)
(** * slcanBus *)
(* ===================================================================== *)

(** The supported bitrates and their commands. *)
Definition _BITRATES : list (Z * str) :=
  [ (10000, lit "S0"); (20000, lit "S1"); (50000, lit "S2");
    (100000, lit "S3"); (125000, lit "S4"); (250000, lit "S5");
    (500000, lit "S6"); (750000, lit "S7"); (1000000, lit "S8");
    (83300, lit "S9") ].

Definition _OK : byte := x0d.
Definition _ERROR : byte := x07.
Definition LINE_TERMINATOR : bytes := [x0d].

(** [dict] lookup by key. *)
Fixpoint lookup (k : Z) (d : list (Z * str)) : option str :=
  match d with
  | [] => None
  | (k', v) :: r => if k =? k' then Some v else lookup k r
  end.

(** [bytearray.find] of a single byte: the first index, -1 when absent. *)
Fixpoint find_from (sub : byte) (buf : bytes) (i : Z) : Z :=
  match buf with
  | [] => -1
  | x :: r => if Byte.eqb x sub then i else find_from sub r (i + 1)
  end.

Definition find (buf : bytes) (sub : byte) : Z := find_from sub buf 0.

(** ** Writing a command *)

Definition _write (string : str) : M unit :=
  error_check "Could not write to serial device"
    (d <-- lift (encode string) ;;
     port_write (d ++ LINE_TERMINATOR) ;;;
     port_flush).

(** ** The line framer *)

(** What [serial.Timeout(timeout)] amounts to in the loop of [_read]:
    [Never] for [timeout = None]; otherwise the number of times the loop
    condition will find the deadline not yet reached, which is 0 for
    [timeout = 0] and depends on the clock for a positive [timeout]. *)
Inductive Deadline : Type :=
| Never
| Polls (n : nat).

Definition expired (t : Deadline) : bool :=
  match t with
  | Polls O => true
  | _ => false
  end.

Definition tick (t : Deadline) : Deadline :=
  match t with
  | Polls (S n) => Polls n
  | _ => t
  end.

(** The [while] loop of [_read]; [fuel] bounds the number of rounds, and
    a loop still running when it is used up never ends (see [_read]). *)
Fixpoint _read_loop (fuel : nat) (_timeout : Deadline) : M (option str) :=
  match fuel with
  | O => fun b => (Hang, b)
  | S fuel' =>
      if expired _timeout then ret None
      else
        buf <-- gets _buffer ;;
        let ok_index := find buf _OK in
        let error_index := find buf _ERROR in
        if negb (error_index =? -1) || negb (ok_index =? -1) then
          first_marker_index <--
            lift (py_min (filter (fun idx => negb (idx =? -1))
                            [error_index; ok_index])) ;;
          string <-- lift (decode (slice_to buf (first_marker_index + 1))) ;;
          modify (with_buffer (slice_from buf (first_marker_index + 1))) ;;;
          ret (Some string)
        else
          in_waiting <-- port_in_waiting ;;
          (if in_waiting >? 0 then
             new_bytes <-- port_read in_waiting ;;
             modify (fun b => with_buffer (_buffer b ++ new_bytes) b)
           else sleep) ;;;
          _read_loop fuel' (tick _timeout)
  end.

(** One round is enough for each poll the deadline allows; without a
    deadline, one for each entry of [incoming] and a last one, after
    which nothing changes any more and the loop runs for ever. *)
Definition rounds (_timeout : Deadline) (b : slcanBus) : nat :=
  match _timeout with
  | Never => S (length (incoming (serialPortOrig b)))
  | Polls n => S n
  end.

Definition _read (timeout : Deadline) : M (option str) :=
  fun b =>
    error_check "Could not read from serial device"
      (_read_loop (rounds timeout b) timeout) b.

Definition flush : M unit :=
  modify (with_buffer []) ;;;
  error_check "Could not flush" port_reset_input_buffer.

(** ** Session commands *)

Definition open : M unit :=
  listen_only <-- gets _listen_only ;;
  if listen_only then _write (lit "L") else _write (lit "O").

Definition close : M unit := _write (lit "C").

Definition _set_bit_timing_fd (timing : BitTimingFd) : M unit :=
  let nomStr := lit "P" ++ format_d 4 (nom_sjw timing)
                  ++ format_d 4 (nom_tseg1 timing)
                  ++ format_d 4 (nom_tseg2 timing)
                  ++ format_d 4 (nom_brp timing) in
  let dataStr := lit "p" ++ format_d 4 (data_sjw timing)
                   ++ format_d 4 (data_tseg1 timing)
                   ++ format_d 4 (data_tseg2 timing)
                   ++ format_d 4 (data_brp timing) in
  close ;;;
  _write nomStr ;;;
  _write dataStr ;;;
  open.

Definition set_bitrate (bitrate : Z) : M unit :=
  match lookup bitrate _BITRATES with
  | Some bitrate_code =>
      close ;;;
      _write bitrate_code ;;;
      open
  | None => raise ValueError
  end.

Definition set_bitrate_reg (btr : str) : M unit :=
  close ;;;
  _write (lit "s" ++ btr) ;;;
  open.

(** ** The DLC codec *)

Definition decode_hex_dlc (hex_dlc : str) : result Z :=
  let hex_dlc := upper hex_dlc in
  if isdigit hex_dlc then
    rbind (int hex_dlc 10) (fun num =>
      if (0 <=? num) && (num <=? 8) then Ok num
      else if num =? 9 then Ok 12
      else Ok 64)
  else if str_eqb hex_dlc (lit "A") then Ok 16
  else if str_eqb hex_dlc (lit "B") then Ok 20
  else if str_eqb hex_dlc (lit "C") then Ok 24
  else if str_eqb hex_dlc (lit "D") then Ok 32
  else if str_eqb hex_dlc (lit "E") then Ok 48
  else Ok 64.

Definition encode_dlc_hex (data_length : Z) : str :=
  if (0 <=? data_length) && (data_length <=? 8) then format_X 0 data_length
  else if data_length =? 12 then lit "9"
  else if data_length =? 16 then lit "A"
  else if data_length =? 20 then lit "B"
  else if data_length =? 24 then lit "C"
  else if data_length =? 32 then lit "D"
  else if data_length =? 48 then lit "E"
  else lit "F".

(** ** Receiving a frame *)

(** [string[i]] as a string of one character. *)
Definition char_at (string : str) (i : Z) : result str :=
  rbind (index string i) (fun c => Ok [c]).

(** The local variables of [_recv_internal] that a branch sets. *)
Record frame : Type := {
  canId : Z;
  f_dlc : Z;
  remote : bool;
  extended : bool;
  f_is_fd : bool;
  f_bitrate_switch : bool;
  f_data : option bytes
}.

(** The branches of [_recv_internal]: [None] when no branch applies and
    [canId] stays [None]. *)
Definition parse_frame (string : str) : result (option frame) :=
  match string with
  | [] => Ok None
  | c :: _ =>
      if (c =? ord "T")%N || (c =? ord "x")%N then
        (* extended frame *)
        rbind (int (slice string 1 9) 16) (fun canId =>
        rbind (char_at string 9) (fun d =>
        rbind (int d 10) (fun dlc =>
        rbind (fromhex (slice string 10 (10 + dlc * 2))) (fun data =>
        Ok (Some {| canId := canId; f_dlc := dlc; remote := false;
                    extended := true; f_is_fd := false;
                    f_bitrate_switch := false; f_data := Some data |})))))
      else if (c =? ord "t")%N then
        (* normal frame *)
        rbind (int (slice string 1 4) 16) (fun canId =>
        rbind (char_at string 4) (fun d =>
        rbind (int d 10) (fun dlc =>
        rbind (fromhex (slice string 5 (5 + dlc * 2))) (fun data =>
        Ok (Some {| canId := canId; f_dlc := dlc; remote := false;
                    extended := false; f_is_fd := false;
                    f_bitrate_switch := false; f_data := Some data |})))))
      else if (c =? ord "r")%N then
        (* remote frame *)
        rbind (int (slice string 1 4) 16) (fun canId =>
        rbind (char_at string 4) (fun d =>
        rbind (int d 10) (fun dlc =>
        Ok (Some {| canId := canId; f_dlc := dlc; remote := true;
                    extended := false; f_is_fd := false;
                    f_bitrate_switch := false; f_data := None |}))))
      else if (c =? ord "R")%N then
        (* remote extended frame *)
        rbind (int (slice string 1 9) 16) (fun canId =>
        rbind (char_at string 9) (fun d =>
        rbind (int d 10) (fun dlc =>
        Ok (Some {| canId := canId; f_dlc := dlc; remote := true;
                    extended := true; f_is_fd := false;
                    f_bitrate_switch := false; f_data := None |}))))
      else if (c =? ord "d")%N then
        (* Standard CAN FD data frame *)
        rbind (int (slice string 1 4) 16) (fun canId =>
        rbind (char_at string 4) (fun d =>
        rbind (decode_hex_dlc d) (fun dlc =>
        rbind (fromhex (slice string 5 (5 + dlc * 2))) (fun data =>
        Ok (Some {| canId := canId; f_dlc := dlc; remote := false;
                    extended := false; f_is_fd := true;
                    f_bitrate_switch := false; f_data := Some data |})))))
      else if (c =? ord "D")%N then
        (* Extended CAN FD data frame *)
        rbind (int (slice string 1 9) 16) (fun canId =>
        rbind (char_at string 9) (fun d =>
        rbind (decode_hex_dlc d) (fun dlc =>
        rbind (fromhex (slice string 10 (10 + dlc * 2))) (fun data =>
        Ok (Some {| canId := canId; f_dlc := dlc; remote := false;
                    extended := true; f_is_fd := true;
                    f_bitrate_switch := false; f_data := Some data |})))))
      else if (c =? ord "b")%N then
        (* CANFD Flexible Data Frame *)
        rbind (int (slice string 1 4) 16) (fun canId =>
        rbind (char_at string 4) (fun d =>
        rbind (decode_hex_dlc d) (fun dlc =>
        rbind (fromhex (slice string 5 (5 + dlc * 2))) (fun data =>
        Ok (Some {| canId := canId; f_dlc := dlc; remote := false;
                    extended := false; f_is_fd := true;
                    f_bitrate_switch := true; f_data := Some data |})))))
      else if (c =? ord "B")%N then
        (* Extended CANFD Flexible Data Frame *)
        rbind (int (slice string 1 9) 16) (fun canId =>
        rbind (char_at string 9) (fun d =>
        rbind (decode_hex_dlc d) (fun dlc =>
        rbind (fromhex (slice string 10 (10 + dlc * 2))) (fun data =>
        Ok (Some {| canId := canId; f_dlc := dlc; remote := false;
                    extended := true; f_is_fd := true;
                    f_bitrate_switch := true; f_data := Some data |})))))
      else Ok None
  end.

Definition _recv_internal (timeout : Deadline) : M (option Message * bool) :=
  string <-- _read timeout ;;
  match string with
  | None => ret (None, false)
  | Some string =>
      parsed <-- lift (parse_frame string) ;;
      match parsed with
      | Some f =>
          now <-- gets wall_clock ;;
          ret (Some (new_Message (canId f) (extended f) now (remote f)
                       (f_is_fd f) (f_bitrate_switch f) (f_dlc f) (f_data f)),
               false)
      | None => ret (None, false)
      end
  end.

(** ** Sending a frame *)

(** The command [send] builds for a message. *)
Definition sendStr (msg : Message) : str :=
  if is_fd msg then
    let dlc_hex := encode_dlc_hex (dlc msg) in
    let sendStr :=
      if bitrate_switch msg then
        if is_extended_id msg
        then lit "B" ++ format_X 8 (arbitration_id msg) ++ dlc_hex
        else lit "b" ++ format_X 3 (arbitration_id msg) ++ dlc_hex
      else
        if is_extended_id msg
        then lit "D" ++ format_X 8 (arbitration_id msg) ++ dlc_hex
        else lit "d" ++ format_X 3 (arbitration_id msg) ++ dlc_hex in
    let sendStr := sendStr ++ upper (hex (data msg)) in
    if str_eqb dlc_hex (lit "F") && (dlc msg <? 64) then
      let padding := str_mul (lit "00") (64 - dlc msg) in
      sendStr ++ padding
    else sendStr
  else
    if is_remote_frame msg then
      if is_extended_id msg
      then lit "R" ++ format_X 8 (arbitration_id msg) ++ format_d 0 (dlc msg)
      else lit "r" ++ format_X 3 (arbitration_id msg) ++ format_d 0 (dlc msg)
    else
      (if is_extended_id msg
       then lit "T" ++ format_X 8 (arbitration_id msg) ++ format_d 0 (dlc msg)
       else lit "t" ++ format_X 3 (arbitration_id msg) ++ format_d 0 (dlc msg))
      ++ upper (hex (data msg)).

Definition timeout_eqb (a b : option Z) : bool :=
  match a, b with
  | None, None => true
  | Some x, Some y => x =? y
  | _, _ => false
  end.

Definition send (msg : Message) (timeout : option Z) : M unit :=
  current <-- gets (fun b => write_timeout (serialPortOrig b)) ;;
  (if negb (timeout_eqb timeout current)
   then port_set_write_timeout timeout
   else ret tt) ;;;
  _write (sendStr msg).

(** ** Shutting down *)

(** Modelled from the spec: [shutdown] of the base class, which is not
    among the sources; it leaves the transport alone and records that the
    bus was shut down. *)
Definition BusABC_shutdown : M unit :=
  already <-- gets _is_shutdown ;;
  if already then ret tt else modify (with_is_shutdown true).

Definition shutdown : M unit :=
  BusABC_shutdown ;;;
  close ;;;
  error_check "Could not close serial socket" port_close.

(** ** Queries *)

Definition get_version (timeout : Deadline) : M (option Z * option Z) :=
  let cmd := lit "V" in
  _write cmd ;;;
  string <-- _read timeout ;;
  match string with
  | None | Some [] => ret (None, None)
  | Some string =>
      c <-- lift (char_at string 0) ;;
      if str_eqb c cmd && (len string =? 6) then
        (* convert ASCII coded version *)
        hw_version <-- lift (int (slice string 1 3) 10) ;;
        sw_version <-- lift (int (slice string 3 5) 10) ;;
        ret (Some hw_version, Some sw_version)
      else ret (None, None)
  end.

Definition get_serial_number (timeout : Deadline) : M (option str) :=
  let cmd := lit "N" in
  _write cmd ;;;
  string <-- _read timeout ;;
  match string with
  | None | Some [] => ret None
  | Some string =>
      c <-- lift (char_at string 0) ;;
      if str_eqb c cmd && (len string =? 6) then
        ret (Some (slice string 1 (-1)))
      else ret None
  end.

(** ** Construction *)

(** Modelled from the spec: [__init__] of the base class, which is not
    among the sources; it does not touch the transport. *)
Definition BusABC_init (channel : str) : M unit := ret tt.

Section Construction.

(** The serial library as the module imported it: [None] when it is not
    installed, otherwise its [serial_for_url], which opens the port
    named by a URL at a baud rate, with or without hardware handshake
    and with a read timeout. *)
Variable serial : option (str -> Z -> bool -> Z -> result Serial).

(** [check_or_adjust_timing_clock] of the can package, for the two kinds
    of timing: it returns a timing for one of the valid clocks or
    raises. *)
Variable check_or_adjust_timing_clock :
  BitTiming -> list Z -> result BitTiming.
Variable check_or_adjust_timing_clock_fd :
  BitTimingFd -> list Z -> result BitTimingFd.

(** The commands of the constructor (the body of its second
    [error_check] block). *)
Definition _setup (timing : timing_arg) (bitrate : option Z)
    (btr : option str) : M unit :=
  match timing with
  | Classical timing =>
      timing <-- lift (check_or_adjust_timing_clock timing [8000000]) ;;
      set_bitrate_reg (format_X 2 (btr0 timing)
                       ++ format_X 2 (btr1 timing))
  | Fd timing =>
      timing <--
        lift (check_or_adjust_timing_clock_fd timing [60000000]) ;;
      _set_bit_timing_fd timing
  | NoTiming =>
      (match bitrate, btr with
       | Some _, Some _ => raise ValueError
       | _, _ => ret tt
       end) ;;;
      (match bitrate with
       | Some bitrate => set_bitrate bitrate
       | None => ret tt
       end) ;;;
      (match btr with
       | Some btr => set_bitrate_reg btr
       | None => ret tt
       end)
  end ;;;
  open.

Definition __init__ (channel : str) (tty_baudrate : Z)
    (bitrate : option Z) (timing : timing_arg) (sleep_after_open : Z)
    (rtscts : bool) (listen_only : bool) (timeout : Z)
    (btr : option str) : M unit :=
  modify (fun b =>
    {| _listen_only := listen_only;
       serialPortOrig := serialPortOrig b;
       _buffer := _buffer b;
       _is_shutdown := _is_shutdown b;
       wall_clock := wall_clock b |}) ;;;
  match serial with
  | None => raise CanInterfaceNotImplementedError
  | Some serial_for_url =>
      (* if not channel *)
      (match channel with
       | [] => raise ValueError
       | _ => ret tt
       end) ;;;
      target <--
        (if existsb (N.eqb (ord "@")) channel then
           match split (ord "@") channel with
           | [channel; baudrate] =>
               tty_baudrate <-- lift (int baudrate 10) ;;
               ret (channel, tty_baudrate)
           | _ => raise ValueError
           end
         else ret (channel, tty_baudrate)) ;;
      let '(channel, tty_baudrate) := target in
      error_check_init
        (port <-- lift (serial_for_url channel tty_baudrate rtscts timeout) ;;
         modify (with_port (fun _ => port))) ;;;
      modify (with_buffer []) ;;;
      sleep ;;;
      error_check_init (_setup timing bitrate btr) ;;;
      BusABC_init channel
  end.

End Construction.

(* ===================================================================== *)
(** * Notions used in the statements *)
(* ===================================================================== *)

(** What matters of a digit character: it reads back as the digit, and
    it is none of the characters that [int] and [fromhex] treat apart. *)
Definition plain_digit (d : N) : bool :=
  let c := digit_char d in
  ((digit_value c =? d) && negb (is_space c) && is_ascii c
   && negb (c =? ord "+") && negb (c =? ord "-") && negb (c =? ord "_")
   && negb (c =? ord "x") && negb (c =? ord "X")
   && (33 <=? c) && (c <=? 126))%N.

(** The number a digit sequence denotes, continuing from [acc]. *)
Definition value_from (base : N) (ds : list N) (acc : N) : N :=
  fold_left (fun a d => (a * base + d)%N) ds acc.

(** A printable ASCII character. *)
Definition printable (c : codepoint) : bool := ((33 <=? c) && (c <=? 126))%N.

(** The two upper-case digits of a byte. *)
Definition hex_pair (b : byte) : str :=
  [digit_char (Byte.to_N b / 16); digit_char (Byte.to_N b mod 16)].

(** [_OK] or [_ERROR]. *)
Definition is_terminator (b : byte) : bool :=
  Byte.eqb b _OK || Byte.eqb b _ERROR.

Definition no_terminator (bs : bytes) : bool :=
  forallb (fun b => negb (is_terminator b)) bs.

(** The successive terminator-delimited segments of a byte stream, each
    with its terminator, and the bytes after the last terminator. *)
Fixpoint segments (bs : bytes) : list bytes * bytes :=
  match bs with
  | [] => ([], [])
  | b :: r =>
      let '(segs, rest) := segments r in
      if is_terminator b then ([b] :: segs, rest)
      else match segs with
           | [] => ([], b :: rest)
           | seg :: segs' => ((b :: seg) :: segs', rest)
           end
  end.

(** [_read] called [n] times without a deadline. *)
Fixpoint read_n (n : nat) : M (list (option str)) :=
  match n with
  | O => ret []
  | S n' =>
      x <-- _read Never ;;
      xs <-- read_n n' ;;
      ret (x :: xs)
  end.

(** Sample objects: an open port on a quiet line, and a bus on it. *)
Definition sample_port : Serial :=
  {| is_open := true; written := []; incoming := []; write_timeout := None |}.

Definition sample_bus : slcanBus :=
  {| _listen_only := false; serialPortOrig := sample_port; _buffer := [];
     _is_shutdown := false; wall_clock := 0 |}.

(** The bytes of an ASCII literal. *)
Definition ascii_bytes (s : string) : bytes := map byte_of_N (lit s).

(** The canonical payload sizes and the nibbles that stand for them. *)
Definition canonical_lengths : list Z :=
  [0; 1; 2; 3; 4; 5; 6; 7; 8; 12; 16; 20; 24; 32; 48; 64].

Definition nibbles : str := lit "0123456789ABCDEF".

(** A DLC nibble in either case. *)
Definition is_nibble (c : codepoint) : bool :=
  existsb (N.eqb c) (lit "0123456789ABCDEFabcdef").

Definition result_eqb (r : result Z) (z : Z) : bool :=
  match r with
  | Ok v => v =? z
  | _ => false
  end.

Definition result_Z_eqb (r1 r2 : result Z) : bool :=
  match r1, r2 with
  | Ok v, Ok w => v =? w
  | _, _ => false
  end.

(** A message as the data model has it: an identifier of 11 or 29 bits;
    a remote frame is no FD frame, carries no data and has a length code
    of at most 8; any other frame has as many data bytes as its length
    code says, at most 8 or, for an FD frame, one of the canonical sizes;
    only an FD frame can ask for the bitrate switch. *)
Definition well_formed (m : Message) : bool :=
  (0 <=? arbitration_id m)
  && (arbitration_id m <? (if is_extended_id m then 2 ^ 29 else 2 ^ 11))
  && (if is_remote_frame m then
        negb (is_fd m) && (0 <=? dlc m) && (dlc m <=? 8)
        && (len (data m) =? 0)
      else
        (dlc m =? len (data m))
        && (if is_fd m then existsb (Z.eqb (dlc m)) canonical_lengths
            else dlc m <=? 8))
  && implb (bitrate_switch m) (is_fd m).

(** Equal on all fields except [timestamp] and [channel]. *)
Definition same_frame (m m' : Message) : Prop :=
  arbitration_id m' = arbitration_id m /\
  is_extended_id m' = is_extended_id m /\
  is_remote_frame m' = is_remote_frame m /\
  is_fd m' = is_fd m /\
  bitrate_switch m' = bitrate_switch m /\
  dlc m' = dlc m /\
  data m' = data m.

(** What [_recv_internal] makes of a message that comes back. *)
Definition frame_of (m : Message) : frame :=
  {| canId := arbitration_id m;
     f_dlc := dlc m;
     remote := is_remote_frame m;
     extended := is_extended_id m;
     f_is_fd := is_fd m;
     f_bitrate_switch := bitrate_switch m;
     f_data := if is_remote_frame m then None else Some (data m) |}.

(** A command as it goes on the line: its characters and the line
    terminator. *)
Definition line (command : str) : bytes :=
  map byte_of_N command ++ LINE_TERMINATOR.

(** A write timeout that the port accepts. *)
Definition acceptable (timeout : option Z) : bool :=
  match timeout with
  | Some d => 0 <=? d
  | None => true
  end.

(** The part of an FD command in front of the data: the prefix, the
    identifier and the DLC nibble. *)
Definition fd_header (msg : Message) : str :=
  (if bitrate_switch msg then
     if is_extended_id msg
     then lit "B" ++ format_X 8 (arbitration_id msg)
     else lit "b" ++ format_X 3 (arbitration_id msg)
   else
     if is_extended_id msg
     then lit "D" ++ format_X 8 (arbitration_id msg)
     else lit "d" ++ format_X 3 (arbitration_id msg))
  ++ encode_dlc_hex (dlc msg).

(** Sample messages: the standard data frame 0x123 with four bytes, a
    standard remote frame of length 8, an extended FD frame with bitrate
    switch and twelve bytes, and an FD frame that announces 64 bytes and
    brings one. *)
Definition sample_message : Message :=
  {| timestamp := 0; arbitration_id := 291; is_extended_id := false;
     is_remote_frame := false; is_fd := false; bitrate_switch := false;
     dlc := 4; data := [xde; xad; xbe; xef]; channel := None |}.

Definition sample_remote : Message :=
  {| timestamp := 0; arbitration_id := 256; is_extended_id := false;
     is_remote_frame := true; is_fd := false; bitrate_switch := false;
     dlc := 8; data := []; channel := None |}.

Definition sample_fd : Message :=
  {| timestamp := 0; arbitration_id := 536870911; is_extended_id := true;
     is_remote_frame := false; is_fd := true; bitrate_switch := true;
     dlc := 12; data := repeat xaa 12; channel := None |}.

Definition sample_fd_short : Message :=
  {| timestamp := 0; arbitration_id := 291; is_extended_id := false;
     is_remote_frame := false; is_fd := true; bitrate_switch := false;
     dlc := 64; data := [x01]; channel := None |}.

Definition sample_fd_odd : Message :=
  {| timestamp := 0; arbitration_id := 291; is_extended_id := false;
     is_remote_frame := false; is_fd := true; bitrate_switch := false;
     dlc := 10; data := repeat x11 10; channel := None |}.

(** The bus after bytes went out on the line. *)
Definition emit (d : bytes) (b : slcanBus) : slcanBus :=
  with_port (fun p => set_written (written p ++ d) p) b.

(** The command [open] writes. *)
Definition open_command (listen_only : bool) : str :=
  if listen_only then lit "L" else lit "O".

(** The two timing commands of [_set_bit_timing_fd]. *)
Definition nominal_command (timing : BitTimingFd) : str :=
  lit "P" ++ format_d 4 (nom_sjw timing) ++ format_d 4 (nom_tseg1 timing)
  ++ format_d 4 (nom_tseg2 timing) ++ format_d 4 (nom_brp timing).

Definition data_command (timing : BitTimingFd) : str :=
  lit "p" ++ format_d 4 (data_sjw timing) ++ format_d 4 (data_tseg1 timing)
  ++ format_d 4 (data_tseg2 timing) ++ format_d 4 (data_brp timing).

(** A serial library that opens [sample_port] whatever it is asked for,
    and a timing check that accepts every timing. *)
Definition sample_serial : option (str -> Z -> bool -> Z -> result Serial) :=
  Some (fun _ _ _ _ => Ok sample_port).

Definition accept_timing (t : BitTiming) (_ : list Z) : result BitTiming :=
  Ok t.

Definition accept_timing_fd (t : BitTimingFd) (_ : list Z)
    : result BitTimingFd := Ok t.


Definition sample_timing_fd : BitTimingFd :=
  {| fd_f_clock := 60000000;
     nom_brp := 1; nom_tseg1 := 44; nom_tseg2 := 15; nom_sjw := 1;
     data_brp := 1; data_tseg1 := 8; data_tseg2 := 3; data_sjw := 1 |}.


(** The characters that start a frame. *)
Definition frame_prefixes : str := lit "tTxrRdDbB".

(** What a bus has still to read: the bytes in its buffer and the bytes
    the line will deliver. *)
Definition stream (b : slcanBus) : bytes :=
  _buffer b ++ concat (incoming (serialPortOrig b)).

(** The first character of a string is none of those that start a
    frame. *)
Definition no_frame (s : str) : bool :=
  match s with
  | [] => true
  | c :: _ => negb (existsb (N.eqb c) frame_prefixes)
  end.

(** The width of the identifier field after a frame prefix. *)
Definition id_width (p : N) : Z :=
  if existsb (N.eqb p) (lit "TxRDB") then 8 else 3.

(** Messages sent one after the other, and [n] calls of
    [_recv_internal] with the messages they return. *)
Fixpoint send_all (msgs : list Message) : M unit :=
  match msgs with
  | [] => ret tt
  | msg :: rest => send msg None ;;; send_all rest
  end.

Fixpoint recv_n (timeout : Deadline) (n : nat) : M (list (option Message)) :=
  match n with
  | O => ret []
  | S n' =>
      r <-- _recv_internal timeout ;;
      rs <-- recv_n timeout n' ;;
      ret (fst r :: rs)
  end.

(** The commands of a list of messages as they follow each other on the
    line. *)
Definition wire (msgs : list Message) : bytes :=
  concat (map (fun msg => line (sendStr msg)) msgs).


(** How often a character occurs in a string. *)
Definition occurrences (c : N) (s : str) : nat :=
  length (filter (fun x => N.eqb x c) s).

(** A classical data frame on the line: the prefix, the identifier in
    upper-case hexadecimal digits, one decimal digit for the length, the
    data in hexadecimal, and whatever follows before the terminator. *)
Definition classic_text (p : N) (id : Z) (d : N) (bs : bytes) (tail : str)
    : str :=
  p :: format_X (Z.to_nat (id_width p)) id
    ++ digit_char d :: upper (hex bs) ++ tail.

(** The eight fields of an FD timing are numbers of at most four
    decimal digits. *)
Definition four_digit_fields (timing : BitTimingFd) : bool :=
  forallb (fun v => (0 <=? v) && (v <? 10000))
    [nom_sjw timing; nom_tseg1 timing; nom_tseg2 timing; nom_brp timing;
     data_sjw timing; data_tseg1 timing; data_tseg2 timing;
     data_brp timing].

(** The four fields of four characters after the first character of a
    timing command, read as decimal numbers. *)
Definition timing_fields (command : str) : list (result Z) :=
  map (fun i => int (slice command (1 + 4 * i) (5 + 4 * i)) 10) [0; 1; 2; 3].

(* ===================================================================== *)
(** * Properties of the run-time fragment *)
(* ===================================================================== *)

(** A property of the numbers below a bound can be checked one by one. *)
Lemma below_forallb (P : N -> bool) (n : nat) :
  forallb P (map N.of_nat (seq 0 n)) = true ->
  forall c : N, (c < N.of_nat n)%N -> P c = true.
Proof.
  intros H c Hc.
  rewrite forallb_forall in H. apply H.
  apply in_map_iff. exists (N.to_nat c). split.
  - apply N2Nat.id.
  - apply in_seq. lia.
Qed.

Section Digits.

Lemma plain_digit_16 (d : N) : (d < 16)%N -> plain_digit d = true.
Proof.
  revert d. apply (below_forallb plain_digit 16). reflexivity.
Qed.

Ltac plain d H :=
  let P := fresh "P" in
  pose proof (plain_digit_16 d H) as P; unfold plain_digit in P;
  repeat (apply andb_prop in P; let Q := fresh "Q" in destruct P as [P Q]);
  repeat match goal with
         | Q : negb _ = true |- _ => apply negb_true_iff in Q
         end.

Ltac use_facts :=
  repeat match goal with
         | Q : ?t = true |- context [?t] => rewrite Q
         | Q : ?t = false |- context [?t] => rewrite Q
         end.

Lemma digit_value_digit_char (d : N) :
  (d < 16)%N -> digit_value (digit_char d) = d.
Proof. intro H. plain d H. now apply N.eqb_eq. Qed.

Lemma digit_char_printable (d : N) :
  (d < 16)%N -> printable (digit_char d) = true.
Proof.
  intro H. plain d H. unfold printable. now apply andb_true_intro.
Qed.

Variable base : N.
Hypothesis base_le : (base <= 16)%N.

Lemma scan_digits_all (ds : list N) :
  Forall (fun d => (d < base)%N) ds ->
  forall acc count prev,
    scan_digits base (map digit_char ds) acc count prev =
    Some (value_from base ds acc, (count + length ds)%nat,
          match ds with [] => prev | _ => false end, []).
Proof.
  induction 1 as [|d ds Hd Hds IH]; intros acc count prev; simpl.
  - now rewrite Nat.add_0_r.
  - assert (H16 : (d < 16)%N) by lia. plain d H16.
    use_facts. rewrite (digit_value_digit_char d H16).
    apply N.ltb_lt in Hd. rewrite Hd. rewrite IH.
    replace (S count + length ds)%nat with (count + S (length ds))%nat by lia.
    unfold value_from. simpl. now destruct ds.
Qed.

Lemma forallb_is_ascii_digits (ds : list N) :
  Forall (fun d => (d < base)%N) ds ->
  forallb is_ascii (map digit_char ds) = true.
Proof.
  induction 1 as [|d ds Hd Hds IH]; simpl; [reflexivity|].
  assert (H16 : (d < 16)%N) by lia. plain d H16.
  now use_facts.
Qed.

Lemma lstrip_digit (d : N) (r : str) :
  (d < 16)%N -> lstrip (digit_char d :: r) = digit_char d :: r.
Proof. intro H16. plain d H16. simpl. now use_facts. Qed.

Lemma split_sign_digit (d : N) (r : str) :
  (d < 16)%N -> split_sign (digit_char d :: r) = (1, digit_char d :: r).
Proof. intro H16. plain d H16. unfold split_sign. now use_facts. Qed.

Lemma skip_prefix_digits (ds : list N) :
  Forall (fun d => (d < base)%N) ds ->
  skip_prefix base (map digit_char ds) = map digit_char ds.
Proof.
  intros Hds. destruct ds as [|d [|e ds]]; try reflexivity.
  inversion Hds as [|? ? _ Hds']; subst.
  inversion Hds' as [|? ? He _]; subst.
  assert (He16 : (e < 16)%N) by lia. plain e He16.
  cbn [map skip_prefix]. use_facts. now rewrite andb_false_r.
Qed.

(** [int] reads a digit string as the number it denotes. *)
Lemma int_digit_chars (ds : list N) :
  ds <> [] ->
  Forall (fun d => (d < base)%N) ds ->
  binary_base base = true \/ len ds <= max_str_digits ->
  int (map digit_char ds) base = Ok (Z.of_N (value_from base ds 0)).
Proof.
  intros Hne Hds Hmax. unfold int.
  rewrite (forallb_is_ascii_digits ds Hds).
  destruct ds as [|d ds]; [congruence|].
  assert (H16 : (d < 16)%N) by (inversion Hds; subst; lia).
  change (map digit_char (d :: ds)) with (digit_char d :: map digit_char ds) at 1.
  rewrite lstrip_digit, split_sign_digit by assumption.
  change (digit_char d :: map digit_char ds) with (map digit_char (d :: ds)).
  rewrite (skip_prefix_digits _ Hds).
  rewrite (scan_digits_all (d :: ds) Hds).
  cbn [map]. plain d H16. use_facts.
  assert (Hlimit : negb (binary_base base)
                   && (max_str_digits <? Z.of_nat (0 + length (d :: ds)))
                   = false).
  { destruct Hmax as [-> | Hmax]; [reflexivity|].
    unfold len in Hmax. cbn [Nat.add].
    destruct (Z.ltb_spec max_str_digits (Z.of_nat (length (d :: ds))));
      [lia|apply andb_false_r]. }
  rewrite Hlimit.
  cbn [length Nat.add lstrip].
  now rewrite Z.mul_1_l.
Qed.

End Digits.

Section Formatting.

Variable base : N.
Hypothesis base_ge : (2 <= base)%N.
Hypothesis base_le : (base <= 16)%N.

Lemma digits_fuel_below (fuel : nat) (n : N) :
  Forall (fun d => (d < base)%N) (digits_fuel base fuel n).
Proof.
  revert n. induction fuel as [|f IH]; intro n; simpl; [constructor|].
  assert (n mod base < base)%N by (apply N.mod_lt; lia).
  destruct (n / base =? 0)%N.
  - now repeat constructor.
  - apply Forall_app. split; [apply IH | now repeat constructor].
Qed.

Lemma value_from_snoc (ds : list N) (d acc : N) :
  value_from base (ds ++ [d]) acc = (value_from base ds acc * base + d)%N.
Proof. unfold value_from. now rewrite fold_left_app. Qed.

Lemma digits_fuel_value (fuel : nat) (n : N) :
  (n < base ^ N.of_nat fuel)%N ->
  value_from base (digits_fuel base fuel n) 0 = n.
Proof.
  revert n. induction fuel as [|f IH]; intros n Hn.
  - simpl in *. change (base ^ 0)%N with 1%N in Hn.
    unfold value_from. simpl. lia.
  - cbn [digits_fuel].
    rewrite Nat2N.inj_succ, N.pow_succ_r' in Hn.
    pose proof (N.div_mod n base ltac:(lia)) as Hdm.
    destruct (N.eqb_spec (n / base) 0) as [Hz|Hz].
    + unfold value_from. simpl. rewrite Hz in Hdm. lia.
    + rewrite value_from_snoc, IH; [lia|].
      apply N.Div0.div_lt_upper_bound; lia.
Qed.

Lemma digits_fuel_length (fuel : nat) :
  forall (n : N) (w : nat),
    (1 <= w)%nat -> (n < base ^ N.of_nat w)%N ->
    (length (digits_fuel base fuel n) <= w)%nat.
Proof.
  induction fuel as [|f IH]; intros n w Hw Hn; simpl; [lia|].
  destruct (N.eqb_spec (n / base) 0) as [Hz|Hz]; simpl; [lia|].
  rewrite length_app. simpl.
  destruct w as [|[|w]]; [lia| |].
  - exfalso. apply Hz. apply N.div_small.
    change (N.of_nat 1) with 1%N in Hn. now rewrite N.pow_1_r in Hn.
  - assert (length (digits_fuel base f (n / base)) <= S w)%nat; [|lia].
    apply IH; [lia|].
    rewrite Nat2N.inj_succ, N.pow_succ_r' in Hn.
    apply N.Div0.div_lt_upper_bound; lia.
Qed.

Lemma digits_value (n : N) : value_from base (digits base n) 0 = n.
Proof.
  unfold digits. apply digits_fuel_value.
  rewrite Nat2N.inj_succ, N2Nat.id.
  destruct (N.eq_dec n 0) as [->|Hn].
  - change (N.succ (N.log2 0)) with 1%N. rewrite N.pow_1_r. lia.
  - destruct (N.log2_spec n ltac:(lia)) as [_ Hlt].
    eapply N.lt_le_trans; [exact Hlt|].
    apply N.pow_le_mono_l. lia.
Qed.

Lemma digits_nonempty (n : N) : digits base n <> [].
Proof.
  unfold digits. simpl. destruct (n / base =? 0)%N; [discriminate|].
  intro H. apply app_eq_nil in H. destruct H; discriminate.
Qed.

Lemma value_from_zeros (k : nat) (ds : list N) :
  value_from base (repeat 0%N k ++ ds) 0 = value_from base ds 0.
Proof.
  induction k as [|k IH]; [reflexivity|].
  simpl. unfold value_from in *. simpl. exact IH.
Qed.

(** A formatted natural number is a digit string. *)
Lemma format_int_digits (width : nat) (n : Z) :
  0 <= n ->
  format_int base width n =
  map digit_char (repeat 0%N (width - length (digits base (Z.to_N n)))
                  ++ digits base (Z.to_N n)).
Proof.
  intro Hn. unfold format_int.
  destruct (Z.ltb_spec n 0) as [?|_]; [lia|].
  replace (Z.abs_N n) with (Z.to_N n) by (destruct n; simpl; lia || reflexivity).
  rewrite map_app, length_map. simpl. rewrite Nat.sub_0_r.
  now rewrite map_repeat.
Qed.

Lemma length_format_int (width : nat) (n : Z) :
  (1 <= width)%nat -> 0 <= n < Z.of_N base ^ Z.of_nat width ->
  length (format_int base width n) = width.
Proof.
  intros Hw Hn. rewrite format_int_digits by lia.
  rewrite length_map, length_app, repeat_length.
  assert (length (digits base (Z.to_N n)) <= width)%nat; [|lia].
  apply digits_fuel_length; [assumption|].
  apply N2Z.inj_lt. rewrite N2Z.inj_pow, Z2N.id, nat_N_Z by lia. lia.
Qed.

(** [int] reads a formatted number back: in a base that is a power of
    two whatever its length, in another base when it fits in a width
    within the limit on the number of digits. *)
Lemma int_format_int (width : nat) (n : Z) :
  0 <= n ->
  binary_base base = true \/
  ((1 <= width)%nat /\ Z.of_nat width <= max_str_digits /\
   n < Z.of_N base ^ Z.of_nat width) ->
  int (format_int base width n) base = Ok n.
Proof.
  intros Hn Hmax.
  assert (Hlen : binary_base base = true \/
                 len (format_int base width n) <= max_str_digits).
  { destruct Hmax as [Hb|(Hw & Hmax & Hlt)]; [now left|right].
    unfold len. rewrite length_format_int by lia. exact Hmax. }
  rewrite format_int_digits in * by assumption.
  rewrite int_digit_chars.
  - rewrite value_from_zeros, digits_value. f_equal. lia.
  - assumption.
  - intro H. apply app_eq_nil in H. destruct H as [_ H].
    now apply digits_nonempty in H.
  - apply Forall_app. split.
    + apply Forall_forall. intros x Hx. apply repeat_spec in Hx. lia.
    + apply digits_fuel_below.
  - unfold len in *. now rewrite length_map in Hlen.
Qed.

Lemma format_int_printable (width : nat) (n : Z) :
  forallb printable (format_int base width n) = true.
Proof.
  unfold format_int. rewrite !forallb_app.
  apply andb_true_intro. split; [now destruct (n <? 0)|].
  apply andb_true_intro. split.
  - induction (width - _ - _)%nat; simpl; auto.
  - apply forallb_forall. intros c Hc.
    apply in_map_iff in Hc. destruct Hc as [d [<- Hd]].
    apply digit_char_printable.
    pose proof (digits_fuel_below (S (N.to_nat (N.log2 (Z.abs_N n))))
                  (Z.abs_N n)) as HF.
    rewrite Forall_forall in HF. specialize (HF d Hd). lia.
Qed.

End Formatting.

Section HexText.

Lemma byte_nibbles (b : byte) :
  (Byte.to_N b / 16 < 16)%N /\ (Byte.to_N b mod 16 < 16)%N.
Proof.
  pose proof (Byte.to_N_bounded b). split.
  - apply N.Div0.div_lt_upper_bound. lia.
  - apply N.mod_lt. lia.
Qed.

Lemma upper_hex_char (d : N) :
  (d < 16)%N -> upper_char (hex_char_lower d) = [digit_char d].
Proof.
  intro H. revert d H.
  assert (forall d, (d < N.of_nat 16)%N ->
            str_eqb (upper_char (hex_char_lower d)) [digit_char d] = true)
    as Hall by (apply below_forallb; reflexivity).
  intros d H. specialize (Hall d H). unfold str_eqb in Hall.
  now destruct (list_eq_dec N.eq_dec _ _).
Qed.

Lemma upper_hex (data : bytes) :
  upper (hex data) = flat_map hex_pair data.
Proof.
  induction data as [|b data IH]; [reflexivity|].
  destruct (byte_nibbles b) as [Hhi Hlo].
  unfold upper, hex in *. cbn [flat_map app]. rewrite IH.
  rewrite !upper_hex_char by assumption. reflexivity.
Qed.

Lemma length_upper_hex (data : bytes) :
  len (upper (hex data)) = 2 * len data.
Proof.
  rewrite upper_hex. unfold len.
  induction data as [|b data IH]; [reflexivity|].
  cbn [flat_map hex_pair app length]. lia.
Qed.

Lemma byte_of_N_to_N (b : byte) : byte_of_N (Byte.to_N b) = b.
Proof. unfold byte_of_N. now rewrite Byte.of_to_N. Qed.

Lemma to_N_byte_of_N (n : N) : (n < 256)%N -> Byte.to_N (byte_of_N n) = n.
Proof.
  intro H. unfold byte_of_N.
  destruct (Byte.of_N n) as [b|] eqn:E.
  - now apply Byte.to_of_N.
  - apply Byte.of_N_None_iff in E. lia.
Qed.

(** Reading back what [hex] and [upper] wrote. *)
Lemma fromhex_upper_hex (data : bytes) :
  fromhex (upper (hex data)) = Ok data.
Proof.
  rewrite upper_hex.
  induction data as [|b data IH]; [reflexivity|].
  destruct (byte_nibbles b) as [Hhi Hlo].
  cbn [flat_map hex_pair app fromhex].
  pose proof (plain_digit_16 _ Hhi) as P. unfold plain_digit in P.
  repeat (apply andb_prop in P; destruct P as [P ?]).
  repeat match goal with
         | Q : negb _ = true |- _ => apply negb_true_iff in Q
         end.
  replace (is_space (digit_char (Byte.to_N b / 16))) with false
    by (symmetry; assumption).
  rewrite !digit_value_digit_char by assumption.
  apply N.ltb_lt in Hhi, Hlo. rewrite Hhi, Hlo. cbn [andb].
  rewrite IH. cbn [rbind].
  rewrite N.mul_comm, <- N.div_mod by lia.
  now rewrite byte_of_N_to_N.
Qed.

Lemma upper_hex_printable (data : bytes) :
  forallb printable (upper (hex data)) = true.
Proof.
  rewrite upper_hex.
  induction data as [|b data IH]; [reflexivity|].
  destruct (byte_nibbles b) as [Hhi Hlo].
  cbn [flat_map hex_pair app forallb].
  now rewrite !digit_char_printable, IH by assumption.
Qed.

End HexText.

Section Slices.

Context {A : Type}.

Lemma slice_middle (pre a post : list A) :
  slice (pre ++ a ++ post) (len pre) (len pre + len a) = a.
Proof.
  unfold slice, clamp, len.
  rewrite !length_app.
  destruct (Z.ltb_spec (Z.of_nat (length pre)) 0); [lia|].
  destruct (Z.ltb_spec (Z.of_nat (length pre) + Z.of_nat (length a)) 0); [lia|].
  rewrite !Z.min_l by lia.
  replace (Z.to_nat (Z.of_nat (length pre) + Z.of_nat (length a)
                     - Z.of_nat (length pre))) with (length a) by lia.
  rewrite Nat2Z.id, skipn_app, skipn_all, Nat.sub_diag. simpl.
  now rewrite firstn_app, firstn_all, Nat.sub_diag, firstn_O, app_nil_r.
Qed.

Lemma slice_to_prefix (a post : list A) :
  slice_to (a ++ post) (len a) = a.
Proof.
  unfold slice_to. change (slice (a ++ post) 0 (len a))
    with (slice ([] ++ a ++ post) (len (@nil A)) (len (@nil A) + len a)).
  apply slice_middle.
Qed.

Lemma slice_from_suffix (a post : list A) :
  slice_from (a ++ post) (len a) = post.
Proof.
  unfold slice_from, clamp, len. rewrite length_app.
  destruct (Z.ltb_spec (Z.of_nat (length a)) 0); [lia|].
  rewrite Z.min_l by lia.
  now rewrite Nat2Z.id, skipn_app, skipn_all, Nat.sub_diag.
Qed.

Lemma index_middle (pre post : list A) (c : A) :
  index (pre ++ c :: post) (len pre) = Ok c.
Proof.
  unfold index, len.
  assert (E : (Z.of_nat (length pre) <? 0) = false) by (apply Z.ltb_ge; lia).
  rewrite E. cbv beta iota zeta. rewrite E.
  rewrite Nat2Z.id, nth_error_app2, Nat.sub_diag by lia. reflexivity.
Qed.

End Slices.

Section Utf8.

Lemma encode_printable (s : str) :
  forallb printable s = true -> encode s = Ok (map byte_of_N s).
Proof.
  induction s as [|c s IH]; [reflexivity|].
  cbn [forallb]. intro H. apply andb_prop in H. destruct H as [Hc Hs].
  cbn [encode map]. rewrite (IH Hs). unfold encode_char, printable in *.
  apply andb_prop in Hc. destruct Hc as [_ Hc]. apply N.leb_le in Hc.
  destruct (N.ltb_spec c 128); [reflexivity|lia].
Qed.

Lemma decode_printable (s : str) (rest : bytes) :
  forallb printable s = true ->
  decode (map byte_of_N s ++ rest) = rbind (decode rest) (fun t => Ok (s ++ t)).
Proof.
  induction s as [|c s IH]; intro H.
  - simpl. now destruct (decode rest).
  - cbn [forallb] in H. apply andb_prop in H. destruct H as [Hc Hs].
    unfold printable in Hc. apply andb_prop in Hc. destruct Hc as [_ Hc].
    apply N.leb_le in Hc.
    cbn [map app decode]. rewrite to_N_byte_of_N by lia.
    destruct (N.ltb_spec c 128); [|lia].
    rewrite (IH Hs). now destruct (decode rest).
Qed.

Lemma printable_not_terminator (c : codepoint) :
  printable c = true -> is_terminator (byte_of_N c) = false.
Proof.
  unfold printable. intro Hc. apply andb_prop in Hc. destruct Hc as [Hlo Hhi].
  apply N.leb_le in Hlo, Hhi.
  unfold is_terminator, _OK, _ERROR.
  apply orb_false_intro;
    (destruct (Byte.eqb (byte_of_N c) _) eqn:E; [|reflexivity]);
    apply Byte.byte_dec_bl in E;
    apply (f_equal Byte.to_N) in E;
    rewrite to_N_byte_of_N in E by lia;
    simpl in E; lia.
Qed.

Lemma printable_no_terminator (s : str) :
  forallb printable s = true ->
  forallb (fun b => negb (is_terminator b)) (map byte_of_N s) = true.
Proof.
  induction s as [|c s IH]; [reflexivity|].
  cbn [forallb map]. intro H. apply andb_prop in H. destruct H as [Hc Hs].
  now rewrite (IH Hs), printable_not_terminator.
Qed.

End Utf8.

(* ===================================================================== *)
(** * The line framer *)
(* ===================================================================== *)

Section Framer.

Lemma find_from_absent (sub : byte) (buf : bytes) (i : Z) :
  forallb (fun x => negb (Byte.eqb x sub)) buf = true ->
  find_from sub buf i = -1.
Proof.
  revert i. induction buf as [|x buf IH]; intros i H; [reflexivity|].
  cbn [forallb] in H. apply andb_prop in H. destruct H as [Hx Hb].
  cbn [find_from]. apply negb_true_iff in Hx. rewrite Hx. now apply IH.
Qed.

Lemma find_from_skip (sub : byte) (pre rest : bytes) (i : Z) :
  forallb (fun x => negb (Byte.eqb x sub)) pre = true ->
  find_from sub (pre ++ rest) i = find_from sub rest (i + len pre).
Proof.
  revert i. induction pre as [|x pre IH]; intros i H.
  - simpl. f_equal. unfold len. simpl. lia.
  - cbn [forallb] in H. apply andb_prop in H. destruct H as [Hx Hb].
    cbn [app find_from]. apply negb_true_iff in Hx. rewrite Hx.
    rewrite IH by assumption. f_equal. unfold len. cbn [length]. lia.
Qed.

Lemma find_from_range (sub : byte) (buf : bytes) (i : Z) :
  find_from sub buf i = -1 \/ i <= find_from sub buf i.
Proof.
  revert i. induction buf as [|x buf IH]; intro i; cbn [find_from].
  - now left.
  - destruct (Byte.eqb x sub); [right; lia|].
    destruct (IH (i + 1)) as [H|H]; [now left|right; lia].
Qed.

Lemma no_terminator_split (bs : bytes) :
  no_terminator bs = true ->
  forallb (fun x => negb (Byte.eqb x _OK)) bs = true /\
  forallb (fun x => negb (Byte.eqb x _ERROR)) bs = true.
Proof.
  unfold no_terminator, is_terminator.
  induction bs as [|b bs IH]; [now split|].
  cbn [forallb]. intro H. apply andb_prop in H. destruct H as [Hb Hbs].
  apply negb_true_iff, orb_false_elim in Hb. destruct Hb as [H1 H2].
  destruct (IH Hbs) as [I1 I2]. now rewrite H1, H2, I1, I2.
Qed.

(** The index the loop computes is that of the earliest terminator of
    either kind. *)
Lemma first_marker_index (pre post : bytes) (t : byte) :
  no_terminator pre = true -> is_terminator t = true ->
  let buf := pre ++ t :: post in
  let ok_index := find buf _OK in
  let error_index := find buf _ERROR in
  negb (error_index =? -1) || negb (ok_index =? -1) = true /\
  py_min (filter (fun idx => negb (idx =? -1)) [error_index; ok_index])
  = Ok (len pre).
Proof.
  intros Hpre Ht buf ok_index error_index.
  destruct (no_terminator_split pre Hpre) as [Hok Herr].
  subst ok_index error_index buf. unfold find.
  rewrite !find_from_skip by assumption. cbn [find_from].
  pose proof (Zle_0_nat (length pre)) as Hlen. fold (len pre) in Hlen.
  unfold is_terminator in Ht.
  destruct (Byte.eqb t _OK) eqn:E1; destruct (Byte.eqb t _ERROR) eqn:E2;
    try discriminate.
  - simpl. destruct (Z.eqb_spec (len pre) (-1)); [lia|]. simpl.
    split; [reflexivity|]. f_equal. lia.
  - destruct (find_from_range _ERROR post (0 + len pre + 1)) as [H|H].
    + rewrite H. simpl. destruct (Z.eqb_spec (len pre) (-1)); [lia|].
      now simpl.
    + remember (find_from _ERROR post (0 + len pre + 1)) as e.
      simpl. destruct (Z.eqb_spec e (-1)); [lia|].
      destruct (Z.eqb_spec (len pre) (-1)); [lia|]. simpl.
      split; [reflexivity|]. f_equal. lia.
  - destruct (find_from_range _OK post (0 + len pre + 1)) as [H|H].
    + rewrite H. simpl. destruct (Z.eqb_spec (len pre) (-1)); [lia|].
      now simpl.
    + remember (find_from _OK post (0 + len pre + 1)) as e.
      simpl. destruct (Z.eqb_spec e (-1)); [lia|].
      destruct (Z.eqb_spec (len pre) (-1)); [lia|]. simpl.
      split; [reflexivity|]. f_equal. lia.
Qed.

Lemma no_marker_index (buf : bytes) :
  no_terminator buf = true ->
  negb (find buf _ERROR =? -1) || negb (find buf _OK =? -1) = false.
Proof.
  intro H. destruct (no_terminator_split buf H) as [Hok Herr].
  unfold find. now rewrite !find_from_absent by assumption.
Qed.

(** A buffer has no terminator, or it has a first one. *)
Lemma first_terminator (buf : bytes) :
  no_terminator buf = true \/
  exists pre t post,
    buf = pre ++ t :: post /\ no_terminator pre = true /\
    is_terminator t = true.
Proof.
  induction buf as [|b buf IH]; [now left|].
  destruct (is_terminator b) eqn:Hb.
  - right. exists [], b, buf. now repeat split.
  - destruct IH as [H|(pre & t & post & -> & Hpre & Ht)].
    + left. unfold no_terminator in *. cbn [forallb]. now rewrite Hb, H.
    + right. exists (b :: pre), t, post. repeat split; try assumption.
      unfold no_terminator in *. cbn [forallb]. now rewrite Hb, Hpre.
Qed.

(** One round of the loop on a buffer that holds a terminator. *)
Lemma _read_loop_found (fuel : nat) (t : Deadline) (b : slcanBus)
    (pre post : bytes) (x : byte) :
  expired t = false ->
  _buffer b = pre ++ x :: post ->
  no_terminator pre = true -> is_terminator x = true ->
  _read_loop (S fuel) t b =
  match decode (pre ++ [x]) with
  | Ok s => (Ok (Some s), with_buffer post b)
  | Raise e => (Raise e, b)
  | Hang => (Hang, b)
  end.
Proof.
  intros Ht Hbuf Hpre Hx.
  destruct (first_marker_index pre post x Hpre Hx) as [Hany Hmin].
  cbn [_read_loop]. rewrite Ht.
  unfold bind at 1. unfold gets at 1. rewrite Hbuf.
  rewrite Hany. unfold bind at 1. unfold lift at 1. rewrite Hmin.
  replace (pre ++ x :: post) with ((pre ++ [x]) ++ post)
    by (now rewrite <- app_assoc).
  replace (len pre + 1) with (len (pre ++ [x]))
    by (unfold len; rewrite length_app; simpl; lia).
  rewrite slice_to_prefix, slice_from_suffix.
  unfold bind, lift, modify, ret.
  now destruct (decode (pre ++ [x])).
Qed.

(** One round of the loop on a buffer that holds none. *)
Lemma _read_loop_poll (fuel : nat) (t : Deadline) (b : slcanBus) :
  expired t = false ->
  no_terminator (_buffer b) = true ->
  _read_loop (S fuel) t b =
  (in_waiting <-- port_in_waiting ;;
   (if in_waiting >? 0 then
      new_bytes <-- port_read in_waiting ;;
      modify (fun b => with_buffer (_buffer b ++ new_bytes) b)
    else sleep) ;;;
   _read_loop fuel (tick t)) b.
Proof.
  intros Ht Hno. cbn [_read_loop]. rewrite Ht.
  unfold bind at 1. unfold gets at 1.
  now rewrite (no_marker_index _ Hno).
Qed.

Lemma _read_found (t : Deadline) (b : slcanBus)
    (pre post : bytes) (x : byte) :
  expired t = false ->
  _buffer b = pre ++ x :: post ->
  no_terminator pre = true -> is_terminator x = true ->
  _read t b =
  match decode (pre ++ [x]) with
  | Ok s => (Ok (Some s), with_buffer post b)
  | Raise e =>
      (Raise (CanOperationError "Could not read from serial device"), b)
  | Hang => (Hang, b)
  end.
Proof.
  intros Ht Hbuf Hpre Hx. unfold _read, error_check.
  assert (exists f, rounds t b = S f) as [f ->]
    by (destruct t; simpl; eauto).
  rewrite (_read_loop_found f t b pre post x) by assumption.
  now destruct (decode (pre ++ [x])).
Qed.

(** ** Segments of a stream *)

Lemma segments_no_terminator (bs : bytes) :
  no_terminator bs = true -> segments bs = ([], bs).
Proof.
  unfold no_terminator. induction bs as [|b bs IH]; [reflexivity|].
  cbn [forallb segments]. intro H. apply andb_prop in H.
  destruct H as [Hb Hbs]. apply negb_true_iff in Hb.
  now rewrite (IH Hbs), Hb.
Qed.

Lemma segments_first (pre post : bytes) (t : byte) :
  no_terminator pre = true -> is_terminator t = true ->
  segments (pre ++ t :: post) =
  ((pre ++ [t]) :: fst (segments post), snd (segments post)).
Proof.
  unfold no_terminator. intros Hpre Ht.
  induction pre as [|b pre IH].
  - cbn [app segments]. destruct (segments post). now rewrite Ht.
  - cbn [forallb] in Hpre. apply andb_prop in Hpre.
    destruct Hpre as [Hb Hpre]. apply negb_true_iff in Hb.
    cbn [app segments]. rewrite (IH Hpre), Hb. reflexivity.
Qed.

(** Nothing is lost and nothing comes twice: the segments and the rest
    make up the stream. *)
Lemma segments_concat (bs : bytes) :
  concat (fst (segments bs)) ++ snd (segments bs) = bs.
Proof.
  induction bs as [|b bs IH]; [reflexivity|].
  cbn [segments]. destruct (segments bs) as [segs rest].
  cbn [fst snd] in IH.
  destruct (is_terminator b); [cbn; now rewrite IH|].
  destruct segs as [|seg segs]; cbn in *; now rewrite IH.
Qed.

(** Every segment ends with the only terminator it has, and no
    terminator is left after the last one. *)
Lemma segments_shape (bs : bytes) :
  Forall (fun seg => exists pre t, seg = pre ++ [t] /\
                       no_terminator pre = true /\ is_terminator t = true)
    (fst (segments bs)) /\
  no_terminator (snd (segments bs)) = true.
Proof.
  induction bs as [|b bs IH]; [split; [constructor|reflexivity]|].
  cbn [segments]. destruct (segments bs) as [segs rest].
  cbn [fst snd] in IH. destruct IH as [Hsegs Hrest].
  destruct (is_terminator b) eqn:Hb.
  - split; [|assumption]. constructor; [|assumption].
    exists [], b. now repeat split.
  - destruct segs as [|seg segs].
    + split; [constructor|]. unfold no_terminator in *. cbn [snd forallb].
      now rewrite Hb, Hrest.
    + inversion Hsegs as [|? ? (pre & t & -> & Hpre & Ht) Htl]; subst.
      split; [|assumption]. constructor; [|assumption].
      exists (b :: pre), t. repeat split; try assumption.
      unfold no_terminator in *. cbn [forallb]. now rewrite Hb, Hpre.
Qed.

(** ** Reading without a deadline *)

(** With the stream partly in the buffer and partly still to arrive, in
    any number of pieces, a read returns the first segment and leaves
    the rest of the stream. *)
Lemma _read_loop_never (inc : list bytes) :
  forall (b : slcanBus) (seg : bytes) (segs : list bytes) (rest : bytes)
         (s : str),
    incoming (serialPortOrig b) = inc ->
    is_open (serialPortOrig b) = true ->
    segments (_buffer b ++ concat inc) = (seg :: segs, rest) ->
    decode seg = Ok s ->
    exists b',
      _read_loop (S (length inc)) Never b = (Ok (Some s), b') /\
      is_open (serialPortOrig b') = true /\
      written (serialPortOrig b') = written (serialPortOrig b) /\
      segments (_buffer b' ++ concat (incoming (serialPortOrig b')))
      = (segs, rest).
Proof.
  induction inc as [|chunk inc IH]; intros b seg segs rest s Hinc Hopen Hseg Hdec.
  - destruct (first_terminator (_buffer b))
      as [Hno|(pre & t & post & Hbuf & Hpre & Ht)].
    + cbn [concat] in Hseg. rewrite app_nil_r in Hseg.
      rewrite segments_no_terminator in Hseg by assumption. discriminate.
    + rewrite (_read_loop_found _ Never b pre post t) by (auto || reflexivity).
      rewrite Hbuf in Hseg.
      rewrite <- app_assoc in Hseg. cbn [app] in Hseg.
      rewrite segments_first in Hseg by assumption.
      injection Hseg as <- <- <-. rewrite Hdec.
      exists (with_buffer post b). cbn. rewrite Hinc.
      repeat split; try assumption.
      cbn [concat]. now destruct (segments (post ++ [])).
  - destruct (first_terminator (_buffer b))
      as [Hno|(pre & t & post & Hbuf & Hpre & Ht)].
    + cbn [length]. rewrite _read_loop_poll by (assumption || reflexivity).
      unfold bind at 1. unfold port_in_waiting at 1. rewrite Hopen, Hinc.
      cbn [hd].
      destruct (len chunk >? 0) eqn:Hlen.
      * unfold bind at 1. unfold bind at 1. unfold port_read at 1.
        rewrite Hopen, Hinc. cbn [hd tl]. unfold modify at 1.
        replace (slice_to chunk (len chunk)) with chunk
          by (pose proof (slice_to_prefix chunk []) as E;
              rewrite app_nil_r in E; now rewrite E).
        set (b1 := with_buffer _ _).
        destruct (IH b1 seg segs rest s) as (b' & Hrun & Ho & Hw & Hs).
        -- subst b1. cbn. now rewrite Hinc.
        -- subst b1. cbn. assumption.
        -- subst b1. cbn. cbn [concat] in Hseg. now rewrite <- app_assoc.
        -- assumption.
        -- exists b'. cbn [tick]. rewrite Hrun. repeat split; assumption.
      * unfold bind at 1. unfold sleep at 1. unfold modify at 1.
        assert (chunk = []) as ->.
        { destruct chunk; [reflexivity|]. unfold len in Hlen.
          cbn [length] in Hlen. rewrite Z.gtb_ltb in Hlen.
          apply Z.ltb_ge in Hlen. lia. }
        set (b1 := with_port _ _).
        destruct (IH b1 seg segs rest s) as (b' & Hrun & Ho & Hw & Hs).
        -- subst b1. cbn. now rewrite Hinc.
        -- subst b1. cbn. now rewrite Hinc.
        -- subst b1. cbn. now cbn [concat app] in Hseg.
        -- assumption.
        -- exists b'. cbn [tick]. rewrite Hrun.
           repeat split; try assumption.
           rewrite Hw. subst b1. cbn. now rewrite Hinc.
    + rewrite (_read_loop_found _ Never b pre post t) by (auto || reflexivity).
      rewrite Hbuf in Hseg.
      rewrite <- app_assoc in Hseg. cbn [app] in Hseg.
      rewrite segments_first in Hseg by assumption.
      injection Hseg as <- <- <-. rewrite Hdec.
      exists (with_buffer post b). cbn [with_buffer serialPortOrig _buffer].
      rewrite Hinc. repeat split; try assumption.
      cbn [concat]. now destruct (segments (post ++ chunk ++ concat inc)).
Qed.

End Framer.

Section FramerResults.

Lemma _read_never (b : slcanBus) (seg : bytes) (segs : list bytes)
    (rest : bytes) (s : str) :
  is_open (serialPortOrig b) = true ->
  segments (_buffer b ++ concat (incoming (serialPortOrig b)))
  = (seg :: segs, rest) ->
  decode seg = Ok s ->
  exists b',
    _read Never b = (Ok (Some s), b') /\
    is_open (serialPortOrig b') = true /\
    written (serialPortOrig b') = written (serialPortOrig b) /\
    segments (_buffer b' ++ concat (incoming (serialPortOrig b')))
    = (segs, rest).
Proof.
  intros Hopen Hseg Hdec.
  destruct (_read_loop_never (incoming (serialPortOrig b)) b seg segs rest s
              eq_refl Hopen Hseg Hdec) as (b' & Hrun & H).
  exists b'. split; [|exact H].
  unfold _read, error_check, rounds. now rewrite Hrun.
Qed.

Lemma read_n_segments (segs : list bytes) :
  forall (b : slcanBus) (rest : bytes) (strs : list str),
    is_open (serialPortOrig b) = true ->
    segments (_buffer b ++ concat (incoming (serialPortOrig b)))
    = (segs, rest) ->
    Forall2 (fun seg s => decode seg = Ok s) segs strs ->
    exists b',
      read_n (length segs) b = (Ok (map Some strs), b') /\
      _buffer b' ++ concat (incoming (serialPortOrig b')) = rest /\
      written (serialPortOrig b') = written (serialPortOrig b).
Proof.
  induction segs as [|seg segs IH]; intros b rest strs Hopen Hseg Hall.
  - inversion Hall; subst. exists b. repeat split.
    pose proof (segments_concat
                  (_buffer b ++ concat (incoming (serialPortOrig b)))) as H.
    now rewrite Hseg in H.
  - inversion Hall as [|? s ? strs' Hdec Hall']; subst.
    destruct (_read_never b seg segs rest s Hopen Hseg Hdec)
      as (b1 & Hrun & Hopen1 & Hw1 & Hseg1).
    destruct (IH b1 rest strs' Hopen1 Hseg1 Hall') as (b' & Hn & Hrest & Hw).
    exists b'. cbn [length read_n map]. unfold bind at 1. rewrite Hrun.
    unfold bind at 1. rewrite Hn. unfold ret.
    repeat split; [assumption|congruence].
Qed.

Lemma decode_ascii (bs : bytes) :
  forallb (fun b => (Byte.to_N b <? 128)%N) bs = true ->
  decode bs = Ok (map Byte.to_N bs).
Proof.
  induction bs as [|b bs IH]; [reflexivity|].
  cbn [forallb]. intro H. apply andb_prop in H. destruct H as [Hb Hbs].
  cbn [decode map]. now rewrite Hb, (IH Hbs).
Qed.

(** C2, as amended.  On a buffer that holds a terminator, a read whose
    deadline has not passed on entry returns the text of the prefix up
    to and including the earliest terminator of either kind, provided
    that prefix decodes (is valid UTF-8), and leaves the remaining
    suffix in the buffer.  Hence reads without a deadline on a stream
    that an open port delivers in any number of pieces return the
    successive terminator-delimited segments of the stream, in order,
    each once, and leave what follows the last terminator.  ASCII bytes
    always decode, to themselves. *)
Theorem framer_segments :
  (forall (t : Deadline) (b : slcanBus) (pre post : bytes) (x : byte)
          (s : str),
      expired t = false ->
      _buffer b = pre ++ x :: post ->
      no_terminator pre = true -> is_terminator x = true ->
      decode (pre ++ [x]) = Ok s ->
      _read t b = (Ok (Some s), with_buffer post b)) /\
  (forall (b : slcanBus) (segs : list bytes) (rest : bytes)
          (strs : list str),
      is_open (serialPortOrig b) = true ->
      segments (_buffer b ++ concat (incoming (serialPortOrig b)))
      = (segs, rest) ->
      Forall2 (fun seg s => decode seg = Ok s) segs strs ->
      exists b',
        read_n (length segs) b = (Ok (map Some strs), b') /\
        _buffer b' ++ concat (incoming (serialPortOrig b')) = rest /\
        written (serialPortOrig b') = written (serialPortOrig b)) /\
  (forall bs : bytes,
      forallb (fun b => (Byte.to_N b <? 128)%N) bs = true ->
      decode bs = Ok (map Byte.to_N bs)).
Proof.
  split; [|split].
  - intros t b pre post x s Ht Hbuf Hpre Hx Hdec.
    rewrite (_read_found t b pre post x) by assumption.
    now rewrite Hdec.
  - intros b segs. apply read_n_segments.
  - exact decode_ascii.
Qed.

Lemma framer_segments_witness :
  _read (Polls 1) (with_buffer (ascii_bytes "z" ++ [x07; x0d]) sample_bus)
  = (Ok (Some [122%N; 7%N]), with_buffer [x0d] sample_bus) /\
  (exists b',
     read_n 2 (with_port (set_incoming [[x0d; x07]; []; ascii_bytes "O"])
                 (with_buffer (ascii_bytes "t1230") sample_bus))
     = (Ok [Some (lit "t1230" ++ [13%N]); Some [7%N]], b') /\
     _buffer b' ++ concat (incoming (serialPortOrig b')) = ascii_bytes "O" /\
     written (serialPortOrig b') = []) /\
  decode (ascii_bytes "V1234") = Ok (lit "V1234").
Proof.
  split; [|split].
  - exact (proj1 framer_segments (Polls 1)
             (with_buffer (ascii_bytes "z" ++ [x07; x0d]) sample_bus)
             (ascii_bytes "z") [x0d] x07 [122%N; 7%N]
             eq_refl eq_refl eq_refl eq_refl eq_refl).
  - refine (proj1 (proj2 framer_segments)
             (with_port (set_incoming [[x0d; x07]; []; ascii_bytes "O"])
                (with_buffer (ascii_bytes "t1230") sample_bus))
             [ascii_bytes "t1230" ++ [x0d]; [x07]] (ascii_bytes "O")
             [lit "t1230" ++ [13%N]; [7%N]]
             eq_refl eq_refl _).
    repeat constructor.
  - exact (proj2 (proj2 framer_segments) (ascii_bytes "V1234") eq_refl).
Defined.

(** C2, as stated, fails: a buffer that holds a terminator after a byte
    that is no UTF-8 makes the read fail with an operation error, and
    nothing leaves the buffer. *)
Lemma read_of_undecodable_prefix :
  no_terminator [xff; x0d] = false /\
  _read Never (with_buffer [xff; x0d] sample_bus)
  = (Raise (CanOperationError "Could not read from serial device"),
     with_buffer [xff; x0d] sample_bus).
Proof. split; reflexivity. Qed.

End FramerResults.

(* ===================================================================== *)
(** * The DLC codec *)
(* ===================================================================== *)

Section DlcCodec.

(** C3.  Encoding a canonical byte count and decoding the nibble gives
    the count back; decoding a nibble and encoding the count gives the
    nibble back. *)
Theorem dlc_round_trip (n : Z) (c : codepoint) :
  In n canonical_lengths -> In c nibbles ->
  decode_hex_dlc (encode_dlc_hex n) = Ok n /\
  rbind (decode_hex_dlc [c]) (fun k => Ok (encode_dlc_hex k)) = Ok [c].
Proof.
  intros Hn Hc. split.
  - unfold canonical_lengths in Hn. cbn [In] in Hn.
    repeat (destruct Hn as [<-|Hn]; [reflexivity|]). contradiction.
  - cbv [nibbles lit list_ascii_of_string map] in Hc. cbn [In] in Hc.
    repeat (destruct Hc as [<-|Hc]; [reflexivity|]). contradiction.
Qed.

Lemma dlc_round_trip_witness :
  decode_hex_dlc (encode_dlc_hex 12) = Ok 12 /\
  rbind (decode_hex_dlc [ord "E"]) (fun k => Ok (encode_dlc_hex k))
  = Ok [ord "E"].
Proof.
  apply (dlc_round_trip 12 (ord "E")).
  - unfold canonical_lengths. cbn [In]. tauto.
  - cbv [nibbles lit list_ascii_of_string map]. cbn [In]. tauto.
Defined.

Lemma decode_hex_dlc_ascii_other (c : codepoint) :
  (c < 128)%N -> is_nibble c = false -> decode_hex_dlc [c] = Ok 64.
Proof.
  intros Hc Hnib.
  assert (forall c, (c < N.of_nat 128)%N ->
            is_nibble c || result_eqb (decode_hex_dlc [c]) 64 = true) as Hall
    by (apply below_forallb; vm_compute; reflexivity).
  specialize (Hall c Hc). rewrite Hnib in Hall. cbn [orb] in Hall.
  unfold result_eqb in Hall. revert Hall.
  destruct (decode_hex_dlc [c]); try discriminate.
  intro Hall. apply Z.eqb_eq in Hall. now subst.
Qed.

Lemma decode_hex_dlc_lower (c : codepoint) :
  (ord "a" <= c <= ord "z")%N ->
  decode_hex_dlc [c] = decode_hex_dlc [(c - 32)%N] /\
  exists n, decode_hex_dlc [c] = Ok n.
Proof.
  intros Hc.
  assert (forall c, (c < N.of_nat 128)%N ->
            negb ((ord "a" <=? c) && (c <=? ord "z"))%N
            || result_Z_eqb (decode_hex_dlc [c])
                 (decode_hex_dlc [(c - 32)%N]) = true) as Hall
    by (apply below_forallb; vm_compute; reflexivity).
  assert (Hlt : (c < N.of_nat 128)%N).
  { change (N.of_nat 128) with 128%N. change (ord "z") with 122%N in Hc. lia. }
  specialize (Hall c Hlt).
  replace ((ord "a" <=? c) && (c <=? ord "z"))%N with true in Hall
    by (symmetry; apply andb_true_intro; split; apply N.leb_le; tauto).
  cbn [negb orb] in Hall. unfold result_Z_eqb in Hall. revert Hall.
  destruct (decode_hex_dlc [c]) as [v| |];
    destruct (decode_hex_dlc [(c - 32)%N]) as [w| |]; try discriminate.
  intro Hall. apply Z.eqb_eq in Hall. subst. eauto.
Qed.

Lemma encode_dlc_hex_other (n : Z) :
  ~ In n canonical_lengths -> encode_dlc_hex n = lit "F".
Proof.
  intro Hn. unfold encode_dlc_hex.
  destruct ((0 <=? n) && (n <=? 8)) eqn:E.
  - exfalso. apply Hn. apply andb_prop in E. destruct E as [E1 E2].
    apply Z.leb_le in E1, E2. unfold canonical_lengths. cbn [In].
    assert (n = 0 \/ n = 1 \/ n = 2 \/ n = 3 \/ n = 4 \/ n = 5 \/ n = 6
            \/ n = 7 \/ n = 8) by lia.
    intuition auto.
  - repeat match goal with
           | |- context [?a =? ?b] =>
               destruct (Z.eqb_spec a b);
               [exfalso; apply Hn; subst; unfold canonical_lengths;
                cbn [In]; tauto|]
           end.
    reflexivity.
Qed.

(** Where the codec is as tolerant as it is meant to be: decoding does
    not depend on the case of the nibble; every ASCII character that is
    not a nibble decodes to 64; encoding a length outside the canonical
    set gives [F]. *)
Theorem dlc_codec_tolerance :
  (forall c : codepoint,
      (ord "a" <= c <= ord "z")%N ->
      decode_hex_dlc [c] = decode_hex_dlc [(c - 32)%N] /\
      exists n, decode_hex_dlc [c] = Ok n) /\
  (forall c : codepoint,
      (c < 128)%N -> is_nibble c = false -> decode_hex_dlc [c] = Ok 64) /\
  (forall n : Z, ~ In n canonical_lengths -> encode_dlc_hex n = lit "F").
Proof.
  split; [|split].
  - exact decode_hex_dlc_lower.
  - exact decode_hex_dlc_ascii_other.
  - exact encode_dlc_hex_other.
Qed.

Lemma dlc_codec_tolerance_witness :
  (decode_hex_dlc [ord "c"] = decode_hex_dlc [(ord "c" - 32)%N] /\
   exists n, decode_hex_dlc [ord "c"] = Ok n) /\
  decode_hex_dlc [ord "G"] = Ok 64 /\
  encode_dlc_hex 9 = lit "F".
Proof.
  split; [|split].
  - apply (proj1 dlc_codec_tolerance (ord "c")). vm_compute. split; discriminate.
  - apply (proj1 (proj2 dlc_codec_tolerance) (ord "G")); reflexivity.
  - apply (proj2 (proj2 dlc_codec_tolerance) 9).
    unfold canonical_lengths. cbn [In]. lia.
Defined.

(** C8.  The code at the input where it breaks the claim: SUPERSCRIPT
    TWO (U+00B2) is no nibble, [isdigit] accepts it and [int] does not,
    so decoding it raises [ValueError] where any other character that
    is no nibble, [G] for one, decodes to 64.  The line can deliver it:
    its two bytes in the place of the length code of an FD frame make
    [_recv_internal] raise.  The guard lets through every digit that is
    not ASCII: ARABIC-INDIC DIGIT THREE (U+0663) decodes to 3. *)
Lemma decode_hex_dlc_superscript_two :
  is_nibble 178 = false /\
  isdigit (upper [178%N]) = true /\
  decode_hex_dlc [178%N] = Raise ValueError /\
  decode_hex_dlc [ord "G"] = Ok 64 /\
  decode [xc2; xb2] = Ok [178%N] /\
  _recv_internal (Polls 1)
    (with_buffer (ascii_bytes "d123" ++ [xc2; xb2; x0d]) sample_bus)
  = (Raise ValueError, with_buffer [] sample_bus) /\
  is_nibble 1635 = false /\
  decode_hex_dlc [1635%N] = Ok 3.
Proof. repeat split. Qed.

End DlcCodec.

(* ===================================================================== *)
(** * The frame codec *)
(* ===================================================================== *)

Section FrameLayout.

(** The fields of a frame on the line: a prefix, an identifier of [w]
    characters, one character for the length, the data. *)
Variables (p dc : N) (idstr hexs tail : str) (w : Z).
Hypothesis idstr_len : len idstr = w.

Lemma id_field (hi : Z) :
  hi = 1 + w ->
  slice (p :: idstr ++ dc :: hexs ++ tail) 1 hi = idstr.
Proof.
  intros ->.
  change (p :: idstr ++ dc :: hexs ++ tail)
    with ([p] ++ idstr ++ dc :: hexs ++ tail).
  rewrite <- idstr_len. apply (slice_middle [p] idstr).
Qed.

Lemma dlc_field (i : Z) :
  i = 1 + w ->
  char_at (p :: idstr ++ dc :: hexs ++ tail) i = Ok [dc].
Proof.
  intros ->. unfold char_at.
  replace (p :: idstr ++ dc :: hexs ++ tail)
    with ((p :: idstr) ++ dc :: hexs ++ tail) by reflexivity.
  replace (1 + w) with (len (p :: idstr))
    by (unfold len in *; cbn [length]; lia).
  now rewrite index_middle.
Qed.

Lemma data_field (lo hi : Z) :
  lo = 2 + w -> hi = lo + len hexs ->
  slice (p :: idstr ++ dc :: hexs ++ tail) lo hi = hexs.
Proof.
  intros -> ->.
  replace (p :: idstr ++ dc :: hexs ++ tail)
    with ((p :: idstr ++ [dc]) ++ hexs ++ tail)
    by (cbn [app]; now rewrite <- app_assoc).
  replace (2 + w) with (len (p :: idstr ++ [dc]))
    by (unfold len in *; cbn [length]; rewrite length_app; cbn [length]; lia).
  apply slice_middle.
Qed.

End FrameLayout.

Section FrameCodec.

Lemma id_text (w : nat) (id : Z) :
  (1 <= w)%nat -> 0 <= id < 16 ^ Z.of_nat w ->
  len (format_X w id) = Z.of_nat w /\ int (format_X w id) 16 = Ok id.
Proof.
  intros Hw Hid. unfold format_X, len. split.
  - f_equal. apply length_format_int; lia.
  - apply int_format_int; try lia. now left.
Qed.

Lemma classic_dlc_text (n : Z) :
  0 <= n <= 8 ->
  exists dc, format_d 0 n = [dc] /\ int [dc] 10 = Ok n.
Proof.
  intro H.
  assert (n = 0 \/ n = 1 \/ n = 2 \/ n = 3 \/ n = 4 \/ n = 5 \/ n = 6
          \/ n = 7 \/ n = 8) as Hn by lia.
  repeat (destruct Hn as [->|Hn]; [eexists; split; reflexivity|]).
  subst. eexists. split; reflexivity.
Qed.

Lemma fd_dlc_text (n : Z) :
  existsb (Z.eqb n) canonical_lengths = true ->
  exists dc, encode_dlc_hex n = [dc] /\ decode_hex_dlc [dc] = Ok n /\
             str_eqb [dc] (lit "F") && (n <? 64) = false.
Proof.
  intro H. apply existsb_exists in H. destruct H as [k [Hk E]].
  apply Z.eqb_eq in E. subst k.
  unfold canonical_lengths in Hk. cbn [In] in Hk.
  repeat (destruct Hk as [<-|Hk]; [eexists; repeat split|]).
  contradiction.
Qed.

Ltac eval_prefix_tests :=
  repeat match goal with
         | |- context [N.eqb (ord ?a) (ord ?b)] =>
             let v := eval vm_compute in (N.eqb (ord a) (ord b)) in
             change (N.eqb (ord a) (ord b)) with v
         end;
  cbv beta iota; cbn [orb].

Ltac normal_form :=
  cbn [lit list_ascii_of_string map app]; rewrite <- ?app_assoc; cbn [app].

(** What was sent parses as the frame it was built from. *)
Lemma parse_sendStr (m : Message) :
  well_formed m = true ->
  parse_frame (sendStr m ++ [13%N]) = Ok (Some (frame_of m)).
Proof.
  destruct m as [ts id ext rem fd brs n bs ch].
  unfold well_formed, frame_of, sendStr.
  cbn [arbitration_id is_extended_id is_remote_frame is_fd bitrate_switch
       dlc data].
  intro H.
  apply andb_prop in H. destruct H as [H Hbrs].
  apply andb_prop in H. destruct H as [H Hkind].
  apply andb_prop in H. destruct H as [Hid0 Hid1].
  apply Z.leb_le in Hid0. apply Z.ltb_lt in Hid1.
  assert (Hw : exists w : nat, (w = if ext then 8 else 3)%nat) by eauto.
  destruct Hw as [w Hw].
  destruct (id_text w id) as [Hlen Hint].
  { destruct ext; subst w; lia. }
  { destruct ext; subst w; simpl in *; lia. }
  destruct rem.
  - (* remote frames *)
    repeat (apply andb_prop in Hkind; destruct Hkind as [Hkind ?]).
    apply negb_true_iff in Hkind. subst fd.
    destruct brs; [discriminate|].
    destruct (classic_dlc_text n) as (dc & Hfmt & Hdc); [lia|].
    rewrite Hfmt.
    destruct ext; subst w; normal_form;
      unfold parse_frame; eval_prefix_tests;
      change (dc :: [13%N]) with (dc :: [] ++ [13%N]);
      rewrite (id_field _ _ _ _ _ _ Hlen) by reflexivity;
      rewrite Hint; cbn [rbind];
      rewrite (dlc_field _ _ _ _ _ _ Hlen) by reflexivity; cbn [rbind];
      rewrite Hdc; reflexivity.
  - apply andb_prop in Hkind. destruct Hkind as [Hn Hkind].
    apply Z.eqb_eq in Hn.
    pose proof (length_upper_hex bs) as Hhex.
    assert (Hpos : 0 <= len bs) by (unfold len; lia).
    destruct fd.
    + (* FD frames *)
      destruct (fd_dlc_text n Hkind) as (dc & Henc & Hdec & Hpad).
      rewrite Henc, Hpad.
      destruct brs, ext; subst w; normal_form;
        unfold parse_frame; eval_prefix_tests;
        rewrite (id_field _ _ _ _ _ _ Hlen) by reflexivity;
        rewrite Hint; cbn [rbind];
        rewrite (dlc_field _ _ _ _ _ _ Hlen) by reflexivity; cbn [rbind];
        rewrite Hdec; cbn [rbind];
        rewrite (data_field _ _ _ _ _ _ Hlen) by (reflexivity || lia);
        rewrite fromhex_upper_hex; reflexivity.
    + (* classical data frames *)
      apply Z.leb_le in Hkind.
      destruct brs; [discriminate|].
      destruct (classic_dlc_text n) as (dc & Hfmt & Hdc); [lia|].
      rewrite Hfmt.
      destruct ext; subst w; normal_form;
        unfold parse_frame; eval_prefix_tests;
        rewrite (id_field _ _ _ _ _ _ Hlen) by reflexivity;
        rewrite Hint; cbn [rbind];
        rewrite (dlc_field _ _ _ _ _ _ Hlen) by reflexivity; cbn [rbind];
        rewrite Hdc; cbn [rbind];
        rewrite (data_field _ _ _ _ _ _ Hlen) by (reflexivity || lia);
        rewrite fromhex_upper_hex; reflexivity.
Qed.

End FrameCodec.

(* ===================================================================== *)
(** * Writing and sending *)
(* ===================================================================== *)

Section Sending.

Lemma _write_open (string : str) (d : bytes) (b : slcanBus) :
  is_open (serialPortOrig b) = true ->
  encode string = Ok d ->
  _write string b =
  (Ok tt,
   with_port (fun p => set_written (written p ++ d ++ LINE_TERMINATOR) p) b).
Proof.
  intros Hopen Henc.
  unfold _write, error_check, bind, lift, port_write, port_flush.
  rewrite Henc, Hopen. cbn. now rewrite Hopen.
Qed.

Lemma _write_line (string : str) (b : slcanBus) :
  is_open (serialPortOrig b) = true ->
  forallb printable string = true ->
  _write string b =
  (Ok tt, with_port (fun p => set_written (written p ++ line string) p) b).
Proof.
  intros Hopen Hp. now apply _write_open, encode_printable.
Qed.

Lemma encode_returns_or_raises (s : str) : encode s <> Hang.
Proof.
  induction s as [|c s IH]; [discriminate|].
  cbn [encode]. unfold encode_char.
  repeat match goal with
         | |- context [if ?c then _ else _] => destruct c
         end; cbn [rbind]; try discriminate;
    destruct (encode s); cbn [rbind]; congruence.
Qed.

(** On a port that is not open nothing is written. *)
Lemma _write_closed (string : str) (b : slcanBus) :
  is_open (serialPortOrig b) = false ->
  _write string b =
  (Raise (CanOperationError "Could not write to serial device"), b).
Proof.
  intros Hopen.
  unfold _write, error_check, bind, lift, port_write.
  pose proof (encode_returns_or_raises string) as Hne.
  destruct (encode string); [now rewrite Hopen|reflexivity|congruence].
Qed.

Lemma str_mul_printable (s : str) (n : Z) :
  forallb printable s = true -> forallb printable (str_mul s n) = true.
Proof.
  intro H. unfold str_mul.
  induction (Z.to_nat n) as [|k IH]; [reflexivity|].
  cbn [repeat concat]. now rewrite forallb_app, H, IH.
Qed.

Lemma encode_dlc_hex_printable (n : Z) :
  forallb printable (encode_dlc_hex n) = true.
Proof.
  unfold encode_dlc_hex.
  repeat match goal with
         | |- context [if ?c then _ else _] => destruct c
         end; try reflexivity.
  apply format_int_printable; lia.
Qed.

Lemma sendStr_printable (msg : Message) :
  forallb printable (sendStr msg) = true.
Proof.
  unfold sendStr.
  repeat match goal with
         | |- context [if ?c then _ else _] => destruct c
         end;
    rewrite ?forallb_app;
    repeat (apply andb_true_intro; split);
    try reflexivity;
    try (apply format_int_printable; lia);
    try apply upper_hex_printable;
    try apply encode_dlc_hex_printable;
    try (apply str_mul_printable; reflexivity).
Qed.

Lemma timeout_eqb_eq (a b : option Z) : timeout_eqb a b = true -> a = b.
Proof.
  destruct a, b; cbn; try discriminate; try reflexivity.
  intro H. apply Z.eqb_eq in H. now subst.
Qed.

(** On an open port [send] records the write timeout and writes the
    command and the line terminator. *)
Lemma send_open (msg : Message) (timeout : option Z) (b : slcanBus) :
  is_open (serialPortOrig b) = true ->
  acceptable timeout = true ->
  exists b',
    send msg timeout b = (Ok tt, b') /\
    written (serialPortOrig b')
    = written (serialPortOrig b) ++ line (sendStr msg) /\
    is_open (serialPortOrig b') = true /\
    write_timeout (serialPortOrig b') = timeout /\
    incoming (serialPortOrig b') = incoming (serialPortOrig b) /\
    _buffer b' = _buffer b.
Proof.
  intros Hopen Hacc. unfold send.
  unfold bind at 1. unfold gets at 1.
  destruct (timeout_eqb timeout (write_timeout (serialPortOrig b))) eqn:E.
  - apply timeout_eqb_eq in E. cbn [negb]. unfold bind, ret.
    rewrite _write_line by (assumption || apply sendStr_printable).
    eexists. split; [reflexivity|]. cbn. now repeat split.
  - cbn [negb]. unfold bind.
    assert (port_set_write_timeout timeout b
            = (Ok tt, with_port (set_write_timeout timeout) b)) as ->.
    { unfold port_set_write_timeout. destruct timeout as [d|]; [|reflexivity].
      cbn in Hacc. apply Z.leb_le in Hacc.
      destruct (Z.ltb_spec d 0); [lia|reflexivity]. }
    rewrite _write_line by (assumption || apply sendStr_printable).
    eexists. split; [reflexivity|]. cbn. now repeat split.
Qed.

End Sending.

(* ===================================================================== *)
(** * Frames sent and received *)
(* ===================================================================== *)

Section FrameResults.

Lemma _recv_internal_sent (m : Message) (t : Deadline) (rx : slcanBus)
    (rest : bytes) :
  well_formed m = true ->
  expired t = false ->
  _buffer rx = line (sendStr m) ++ rest ->
  _recv_internal t rx =
  (Ok (Some (new_Message (arbitration_id m) (is_extended_id m)
               (wall_clock rx) (is_remote_frame m) (is_fd m)
               (bitrate_switch m) (dlc m)
               (if is_remote_frame m then None else Some (data m))),
       false),
   with_buffer rest rx).
Proof.
  intros Hwf Ht Hbuf.
  pose proof (sendStr_printable m) as Hp.
  unfold line, LINE_TERMINATOR in Hbuf.
  rewrite <- app_assoc in Hbuf. cbn [app] in Hbuf.
  unfold _recv_internal, bind.
  rewrite (_read_found t rx _ _ _ Ht Hbuf (printable_no_terminator _ Hp) eq_refl).
  rewrite (decode_printable _ [x0d] Hp). cbn [decode rbind].
  change (Byte.to_N x0d) with 13%N. cbn [N.ltb N.compare Pos.compare
    Pos.compare_cont rbind].
  unfold lift. rewrite (parse_sendStr m Hwf).
  reflexivity.
Qed.

(** C1.  A well-formed message that is sent and received again comes
    back with the same identifier, flags, length code and data: [send]
    writes the command and its terminator, and [_recv_internal], given
    these bytes, returns a message equal to the one sent on all fields
    but the timestamp and the channel. *)
Theorem frame_round_trip (m : Message) (tx rx : slcanBus) (t : Deadline)
    (rest : bytes) :
  well_formed m = true ->
  is_open (serialPortOrig tx) = true ->
  expired t = false ->
  _buffer rx = line (sendStr m) ++ rest ->
  exists tx' m',
    send m None tx = (Ok tt, tx') /\
    written (serialPortOrig tx')
    = written (serialPortOrig tx) ++ line (sendStr m) /\
    _recv_internal t rx = (Ok (Some m', false), with_buffer rest rx) /\
    same_frame m m'.
Proof.
  intros Hwf Hopen Ht Hbuf.
  destruct (send_open m None tx Hopen eq_refl) as (tx' & Hsend & Hw & _).
  eexists tx', _. split; [exact Hsend|]. split; [exact Hw|].
  split; [exact (_recv_internal_sent m t rx rest Hwf Ht Hbuf)|].
  unfold same_frame, new_Message. cbn.
  repeat split.
  destruct (is_remote_frame m) eqn:Hrem; [|reflexivity].
  unfold well_formed in Hwf. rewrite Hrem in Hwf.
  apply andb_prop in Hwf. destruct Hwf as [Hwf _].
  apply andb_prop in Hwf. destruct Hwf as [_ Hwf].
  apply andb_prop in Hwf. destruct Hwf as [_ Hwf].
  destruct (data m); [reflexivity|discriminate].
Qed.

Lemma frame_round_trip_witness :
  exists tx' m',
    send sample_fd None sample_bus = (Ok tt, tx') /\
    written (serialPortOrig tx')
    = written (serialPortOrig sample_bus) ++ line (sendStr sample_fd) /\
    _recv_internal Never (with_buffer (line (sendStr sample_fd)) sample_bus)
    = (Ok (Some m', false),
       with_buffer [] (with_buffer (line (sendStr sample_fd)) sample_bus)) /\
    same_frame sample_fd m'.
Proof.
  apply (frame_round_trip sample_fd sample_bus
           (with_buffer (line (sendStr sample_fd)) sample_bus) Never []);
    reflexivity.
Defined.

(** The scenarios of the specification. *)
Example std_data_send :
  sendStr sample_message = lit "t1234DEADBEEF" /\
  sendStr sample_remote = lit "r1008" /\
  sendStr sample_fd = lit "B1FFFFFFF9AAAAAAAAAAAAAAAAAAAAAAAA".
Proof. repeat split. Qed.

Lemma hex_zeros (k : nat) :
  flat_map hex_pair (repeat x00 k) = concat (repeat (lit "00") k).
Proof.
  induction k as [|k IH]; [reflexivity|].
  cbn [repeat flat_map concat]. now rewrite IH.
Qed.

(** C4, as amended.  For an FD message that has as many data bytes as its
    length code says, fewer than 64, and whose length code encodes to
    [F], [send] writes the header and then the hexadecimal text of the
    data followed by zero bytes up to 64 bytes: 128 characters. *)
Theorem fd_padding (m : Message) (timeout : option Z) (b : slcanBus) :
  is_fd m = true ->
  dlc m = len (data m) ->
  encode_dlc_hex (dlc m) = lit "F" ->
  len (data m) < 64 ->
  is_open (serialPortOrig b) = true ->
  acceptable timeout = true ->
  let payload := data m ++ repeat x00 (Z.to_nat (64 - len (data m))) in
  exists b',
    send m timeout b = (Ok tt, b') /\
    written (serialPortOrig b')
    = written (serialPortOrig b) ++ line (fd_header m ++ upper (hex payload)) /\
    len payload = 64 /\
    len (upper (hex payload)) = 128.
Proof.
  intros Hfd Hdlc Henc Hlt Hopen Hacc payload.
  destruct (send_open m timeout b Hopen Hacc) as (b' & Hsend & Hw & _).
  exists b'. split; [exact Hsend|].
  assert (Hlen : len payload = 64).
  { subst payload. unfold len in *. rewrite length_app, repeat_length. lia. }
  split; [|split; [exact Hlen|rewrite length_upper_hex; lia]].
  rewrite Hw. f_equal. f_equal.
  unfold sendStr, fd_header. rewrite Hfd, Henc.
  replace (dlc m <? 64) with true by (symmetry; apply Z.ltb_lt; lia).
  cbn [str_eqb andb].
  replace (str_eqb (lit "F") (lit "F")) with true by reflexivity.
  subst payload. rewrite !upper_hex, flat_map_app, hex_zeros.
  unfold str_mul. rewrite Hdlc.
  destruct (bitrate_switch m), (is_extended_id m);
    now rewrite <- !app_assoc.
Qed.

Lemma fd_padding_witness :
  let payload := data sample_fd_odd ++ repeat x00 54 in
  exists b',
    send sample_fd_odd (Some 1) sample_bus = (Ok tt, b') /\
    written (serialPortOrig b')
    = line (fd_header sample_fd_odd ++ upper (hex payload)) /\
    len payload = 64 /\
    len (upper (hex payload)) = 128.
Proof.
  apply (fd_padding sample_fd_odd (Some 1) sample_bus); reflexivity.
Defined.

(** C4, as stated, fails: a message with length code 64, which encodes
    to [F], and one byte of data is sent with that one byte. *)
Lemma fd_short_data_not_padded :
  is_fd sample_fd_short = true /\
  encode_dlc_hex (dlc sample_fd_short) = lit "F" /\
  len (data sample_fd_short) < 64 /\
  sendStr sample_fd_short = lit "d123F01" /\
  fst (send sample_fd_short None sample_bus) = Ok tt /\
  written (serialPortOrig (snd (send sample_fd_short None sample_bus)))
  = line (lit "d123F01").
Proof. repeat split. Qed.




End FrameResults.

(* ===================================================================== *)
(** * The session *)
(* ===================================================================== *)

Section Session.

Lemma bind_Ok {A B} (m : M A) (k : A -> M B) (b b' : slcanBus) (a : A) :
  m b = (Ok a, b') -> bind m k b = k a b'.
Proof. intro H. unfold bind. now rewrite H. Qed.

Lemma emit_emit (d1 d2 : bytes) (b : slcanBus) :
  emit d2 (emit d1 b) = emit (d1 ++ d2) b.
Proof. unfold emit, with_port, set_written. cbn. now rewrite app_assoc. Qed.

Lemma listen_only_emit (d : bytes) (b : slcanBus) :
  _listen_only (emit d b) = _listen_only b.
Proof. reflexivity. Qed.

Lemma _write_emit (string : str) (b : slcanBus) :
  is_open (serialPortOrig b) = true ->
  forallb printable string = true ->
  _write string b = (Ok tt, emit (line string) b).
Proof. exact (_write_line string b). Qed.

Lemma open_emit (b : slcanBus) :
  is_open (serialPortOrig b) = true ->
  open b = (Ok tt, emit (line (open_command (_listen_only b))) b).
Proof.
  intro Hopen. unfold open, bind, gets, open_command.
  destruct (_listen_only b); now apply _write_emit.
Qed.

Lemma close_emit (b : slcanBus) :
  is_open (serialPortOrig b) = true ->
  close b = (Ok tt, emit (line (lit "C")) b).
Proof. intro Hopen. now apply _write_emit. Qed.


Lemma set_bitrate_emit (bitrate : Z) (code : str) (b : slcanBus) :
  is_open (serialPortOrig b) = true ->
  lookup bitrate _BITRATES = Some code ->
  set_bitrate bitrate b =
  (Ok tt, emit (line (lit "C") ++ line code
                ++ line (open_command (_listen_only b))) b).
Proof.
  intros Hopen Hcode. unfold set_bitrate. rewrite Hcode.
  assert (Hp : forallb printable code = true).
  { unfold _BITRATES in Hcode. cbn [lookup] in Hcode.
    repeat match type of Hcode with
           | (if ?c then _ else _) = _ =>
               destruct c; [injection Hcode as <-; reflexivity|]
           end.
    discriminate. }
  rewrite (bind_Ok _ _ _ _ _ (close_emit b Hopen)).
  rewrite (bind_Ok _ _ _ _ _ (_write_emit code (emit _ b) Hopen Hp)).
  rewrite (open_emit (emit _ (emit _ b)) Hopen).
  now rewrite !listen_only_emit, !emit_emit, <- ?app_assoc.
Qed.

Lemma format_d_printable (w : nat) (n : Z) :
  forallb printable (format_d w n) = true.
Proof. apply format_int_printable; lia. Qed.

Lemma _set_bit_timing_fd_emit (timing : BitTimingFd) (b : slcanBus) :
  is_open (serialPortOrig b) = true ->
  _set_bit_timing_fd timing b =
  (Ok tt, emit (line (lit "C") ++ line (nominal_command timing)
                ++ line (data_command timing)
                ++ line (open_command (_listen_only b))) b).
Proof.
  intros Hopen. unfold _set_bit_timing_fd.
  fold (nominal_command timing). fold (data_command timing).
  assert (Hn : forallb printable (nominal_command timing) = true).
  { unfold nominal_command. rewrite !forallb_app, !format_d_printable.
    reflexivity. }
  assert (Hd : forallb printable (data_command timing) = true).
  { unfold data_command. rewrite !forallb_app, !format_d_printable.
    reflexivity. }
  rewrite (bind_Ok _ _ _ _ _ (close_emit b Hopen)).
  rewrite (bind_Ok _ _ _ _ _ (_write_emit _ (emit _ b) Hopen Hn)).
  rewrite (bind_Ok _ _ _ _ _ (_write_emit _ (emit _ (emit _ b)) Hopen Hd)).
  rewrite (open_emit (emit _ (emit _ (emit _ b))) Hopen).
  now rewrite !listen_only_emit, !emit_emit, <- ?app_assoc.
Qed.

(** C6, as amended.  The first [shutdown] writes the close command and
    closes the port.  The second writes nothing, so the close command
    went out once; but it is no silent no-op: it tries the close command
    again, on the closed port, and raises an operation error. *)
Theorem shutdown_twice (b : slcanBus) :
  is_open (serialPortOrig b) = true ->
  exists b1,
    shutdown b = (Ok tt, b1) /\
    written (serialPortOrig b1) = written (serialPortOrig b) ++ line (lit "C") /\
    is_open (serialPortOrig b1) = false /\
    shutdown b1 =
    (Raise (CanOperationError "Could not write to serial device"), b1).
Proof.
  intro Hopen. unfold shutdown at 1.
  assert (Hbase : exists b0,
            BusABC_shutdown b = (Ok tt, b0) /\
            serialPortOrig b0 = serialPortOrig b /\ _is_shutdown b0 = true).
  { unfold BusABC_shutdown, bind, gets.
    destruct (_is_shutdown b) eqn:E; eexists; split; try reflexivity;
      split; (reflexivity || assumption). }
  destruct Hbase as (b0 & Hb0 & Hport & Hdown).
  rewrite (bind_Ok _ _ _ _ _ Hb0).
  assert (Hopen0 : is_open (serialPortOrig b0) = true) by now rewrite Hport.
  rewrite (bind_Ok _ _ _ _ _ (close_emit b0 Hopen0)).
  unfold error_check, port_close, modify.
  eexists. split; [reflexivity|]. cbn. rewrite Hport.
  repeat split.
  unfold shutdown, BusABC_shutdown. unfold bind at 1. unfold bind at 1.
  unfold gets. cbn. rewrite Hdown. unfold ret.
  unfold bind, close. rewrite _write_closed by reflexivity. reflexivity.
Qed.

Lemma shutdown_twice_witness :
  exists b1,
    shutdown sample_bus = (Ok tt, b1) /\
    written (serialPortOrig b1) = [] ++ line (lit "C") /\
    is_open (serialPortOrig b1) = false /\
    shutdown b1 =
    (Raise (CanOperationError "Could not write to serial device"), b1).
Proof. apply (shutdown_twice sample_bus). reflexivity. Defined.

(** C6, as stated, fails: the second [shutdown] raises. *)
Lemma second_shutdown_raises :
  fst (shutdown sample_bus) = Ok tt /\
  fst (shutdown (snd (shutdown sample_bus)))
  = Raise (CanOperationError "Could not write to serial device").
Proof. split; reflexivity. Qed.

End Session.

(* ===================================================================== *)
(** * Construction *)
(* ===================================================================== *)

Section ConstructionResults.

Variable serial_for_url : str -> Z -> bool -> Z -> result Serial.
Variable check : BitTiming -> list Z -> result BitTiming.
Variable check_fd : BitTimingFd -> list Z -> result BitTimingFd.







End ConstructionResults.

Section ConstructionExamples.



End ConstructionExamples.

(* ===================================================================== *)
(** * The version query and malformed frames *)
(* ===================================================================== *)

Section Queries.

Lemma rbind_Ok_not_Hang {A B} (r : result A) (f : A -> B) :
  r <> Hang -> rbind r (fun a => Ok (f a)) <> Hang.
Proof. destruct r; cbn; congruence. Qed.

Lemma decode_returns_or_raises (bs : bytes) : decode bs <> Hang.
Proof.
  assert (H : forall n bs, (length bs <= n)%nat -> decode bs <> Hang).
  { clear bs. induction n as [|n IH]; intros bs Hn.
    - destruct bs; [discriminate|cbn in Hn; lia].
    - destruct bs as [|b0 r]; [discriminate|]. cbn [decode].
      cbn [length] in Hn.
      destruct (Byte.to_N b0 <? 128)%N.
      { apply rbind_Ok_not_Hang, IH. lia. }
      destruct r as [|b1 r1]; [discriminate|]. cbn [length] in Hn.
      destruct ((194 <=? Byte.to_N b0) && (Byte.to_N b0 <=? 223))%N.
      { destruct (continuation _); [|discriminate].
        apply rbind_Ok_not_Hang, IH. lia. }
      destruct r1 as [|b2 r2]; [discriminate|]. cbn [length] in Hn.
      destruct ((224 <=? Byte.to_N b0) && (Byte.to_N b0 <=? 239))%N.
      { match goal with
        | |- (if ?c then _ else _) <> _ => destruct c; [|discriminate]
        end.
        apply rbind_Ok_not_Hang, IH. lia. }
      destruct r2 as [|b3 r3]; [discriminate|]. cbn [length] in Hn.
      match goal with
      | |- (if ?c then _ else _) <> _ => destruct c; [|discriminate]
      end.
      apply rbind_Ok_not_Hang, IH. lia. }
  apply (H (length bs)). lia.
Qed.

(** A read with a deadline comes back. *)
Lemma _read_loop_polls (n : nat) :
  forall b : slcanBus, fst (_read_loop (S n) (Polls n) b) <> Hang.
Proof.
  induction n as [|n IH]; intro b; [discriminate|].
  cbn [_read_loop expired].
  unfold bind at 1. unfold gets at 1.
  destruct (negb (find (_buffer b) _ERROR =? -1)
            || negb (find (_buffer b) _OK =? -1)).
  - unfold bind, lift, modify, ret.
    destruct (py_min _) as [a| |] eqn:E; try discriminate.
    + pose proof (decode_returns_or_raises
                    (slice_to (_buffer b) (a + 1))) as D.
      destruct (decode _); (discriminate || congruence).
    + exfalso. revert E. unfold py_min.
      destruct (filter _ _); discriminate.
  - unfold bind at 1. unfold port_in_waiting at 1.
    destruct (is_open (serialPortOrig b)) eqn:Hopen; [|discriminate].
    destruct (len (hd [] (incoming (serialPortOrig b))) >? 0).
    + unfold bind at 1. unfold bind at 1. unfold port_read at 1.
      rewrite Hopen. unfold modify at 1. cbn [tick]. apply IH.
    + unfold bind at 1. unfold sleep at 1. unfold modify at 1.
      cbn [tick]. apply IH.
Qed.

Lemma _read_polls_returns (n : nat) (b : slcanBus) :
  fst (_read (Polls n) b) <> Hang.
Proof.
  unfold _read, error_check, rounds.
  pose proof (_read_loop_polls n b) as H.
  destruct (_read_loop (S n) (Polls n) b) as [[a|e|] b']; cbn in *;
    congruence.
Qed.

(** Reading writes nothing. *)
Lemma _read_loop_written (fuel : nat) :
  forall (t : Deadline) (b b' : slcanBus) (r : result (option str)),
    _read_loop fuel t b = (r, b') ->
    written (serialPortOrig b') = written (serialPortOrig b).
Proof.
  induction fuel as [|fuel IH]; intros t b b' r H.
  - cbn in H. now injection H as _ <-.
  - cbn [_read_loop] in H.
    destruct (expired t); [now injection H as _ <-|].
    unfold bind at 1 in H. unfold gets at 1 in H.
    destruct (negb (find (_buffer b) _ERROR =? -1)
              || negb (find (_buffer b) _OK =? -1)).
    + unfold bind, lift, modify, ret in H.
      destruct (py_min _); try (now injection H as _ <-).
      destruct (decode _); now injection H as _ <-.
    + unfold bind at 1 in H. unfold port_in_waiting at 1 in H.
      destruct (is_open (serialPortOrig b)) eqn:Hopen;
        [|now injection H as _ <-].
      destruct (len (hd [] (incoming (serialPortOrig b))) >? 0).
      * unfold bind at 1 in H. unfold bind at 1 in H.
        unfold port_read at 1 in H. rewrite Hopen in H.
        unfold modify at 1 in H.
        apply IH in H. rewrite H. reflexivity.
      * unfold bind at 1 in H. unfold sleep at 1 in H.
        unfold modify at 1 in H.
        apply IH in H. rewrite H. cbn.
        now destruct (incoming (serialPortOrig b)) as [|[|? ?] ?].
Qed.

Lemma _read_written (t : Deadline) (b b' : slcanBus)
    (r : result (option str)) :
  _read t b = (r, b') ->
  written (serialPortOrig b') = written (serialPortOrig b).
Proof.
  unfold _read, error_check. intro H.
  destruct (_read_loop (rounds t b) t b) as [r0 b0] eqn:E.
  apply _read_loop_written in E.
  destruct r0; injection H as _ <-; exact E.
Qed.






(** C10.  For every character that starts a frame there is a response
    that begins with it and makes [_recv_internal] raise [ValueError]:
    one whose identifier is no hexadecimal number.  So does a response
    whose data stop in the middle of a byte, where the slice reaches the
    terminator.  The exception is not turned into an operation error,
    and the response has left the buffer. *)
Theorem malformed_frame_raises (p : N) (t : Deadline) (rx : slcanBus)
    (rest : bytes) :
  In p frame_prefixes ->
  expired t = false ->
  _recv_internal t
    (with_buffer (line (p :: lit "ZZZZZZZZZ") ++ rest) rx)
  = (Raise ValueError, with_buffer rest rx) /\
  _recv_internal t (with_buffer (line (lit "t1231A") ++ rest) rx)
  = (Raise ValueError, with_buffer rest rx).
Proof.
  intros Hp Ht.
  assert (Hrun : forall s : str,
            forallb printable s = true ->
            parse_frame (s ++ [13%N]) = Raise ValueError ->
            _recv_internal t (with_buffer (line s ++ rest) rx)
            = (Raise ValueError, with_buffer rest rx)).
  { intros s Hs Hparse.
    assert (Hbuf : _buffer (with_buffer (line s ++ rest) rx)
                   = map byte_of_N s ++ x0d :: rest).
    { cbn. unfold line, LINE_TERMINATOR. now rewrite <- app_assoc. }
    unfold _recv_internal, bind.
    rewrite (_read_found t _ _ _ _ Ht Hbuf (printable_no_terminator _ Hs)
               eq_refl).
    rewrite (decode_printable _ [x0d] Hs).
    change (decode [x0d]) with (Ok [13%N]). cbn [rbind].
    unfold lift. now rewrite Hparse. }
  split.
  - cbv [frame_prefixes lit list_ascii_of_string map] in Hp. cbn [In] in Hp.
    repeat (destruct Hp as [<-|Hp]; [now apply Hrun|]). contradiction.
  - now apply Hrun.
Qed.

Lemma malformed_frame_raises_witness :
  _recv_internal (Polls 1)
    (with_buffer (line (ord "D" :: lit "ZZZZZZZZZ") ++ [x07]) sample_bus)
  = (Raise ValueError, with_buffer [x07] sample_bus) /\
  _recv_internal (Polls 1)
    (with_buffer (line (lit "t1231A") ++ [x07]) sample_bus)
  = (Raise ValueError, with_buffer [x07] sample_bus).
Proof.
  apply (malformed_frame_raises (ord "D") (Polls 1) sample_bus [x07]).
  - cbv [frame_prefixes lit list_ascii_of_string map]. cbn [In]. tauto.
  - reflexivity.
Defined.

End Queries.



(* ===================================================================== *)
(** * More on the line framer *)
(* ===================================================================== *)

Section FramerInvariants.

Lemma slice_to_from {A} (s : list A) (k : Z) :
  slice_to s k ++ slice_from s k = s.
Proof.
  unfold slice_to, slice_from, slice.
  assert (H0 : clamp (len s) 0 = 0).
  { unfold clamp, len. cbn. lia. }
  rewrite H0. cbn [Z.to_nat skipn]. rewrite Z.sub_0_r.
  apply firstn_skipn.
Qed.

Lemma slice_to_all {A} (s : list A) : slice_to s (len s) = s.
Proof.
  pose proof (slice_to_prefix s []) as E. now rewrite app_nil_r in E.
Qed.

Lemma _read_loop_stream (fuel : nat) :
  forall (t : Deadline) (b b' : slcanBus) (r : result (option str)),
    _read_loop fuel t b = (r, b') ->
    match r with
    | Ok (Some s) =>
        exists seg, decode seg = Ok s /\ seg ++ stream b' = stream b
    | _ => stream b' = stream b
    end.
Proof.
  induction fuel as [|fuel IH]; intros t b b' r H.
  - cbn in H. now injection H as <- <-.
  - cbn [_read_loop] in H.
    destruct (expired t); [now injection H as <- <-|].
    unfold bind at 1 in H. unfold gets at 1 in H.
    destruct (negb (find (_buffer b) _ERROR =? -1)
              || negb (find (_buffer b) _OK =? -1)).
    + unfold bind, lift, modify, ret in H.
      destruct (py_min _) as [a| |]; try (now injection H as <- <-).
      destruct (decode (slice_to (_buffer b) (a + 1))) as [s| |] eqn:D;
        try (now injection H as <- <-).
      injection H as <- <-.
      exists (slice_to (_buffer b) (a + 1)). split; [exact D|].
      unfold stream. cbn. now rewrite app_assoc, slice_to_from.
    + unfold bind at 1 in H. unfold port_in_waiting at 1 in H.
      destruct (is_open (serialPortOrig b)) eqn:Hopen;
        [|now injection H as <- <-].
      destruct (len (hd [] (incoming (serialPortOrig b))) >? 0) eqn:Hlen.
      * unfold bind at 1 in H. unfold bind at 1 in H.
        unfold port_read at 1 in H. rewrite Hopen in H.
        unfold modify at 1 in H.
        match type of H with
        | _read_loop _ _ ?b1 = _ =>
            assert (E : stream b1 = stream b);
            [ unfold stream; cbn; rewrite slice_to_all;
              destruct (incoming (serialPortOrig b)) as [|chunk rest];
              cbn; now rewrite <- ?app_assoc, ?app_nil_r
            | apply IH in H; rewrite E in H; exact H ]
        end.
      * unfold bind at 1 in H. unfold sleep at 1 in H.
        unfold modify at 1 in H.
        match type of H with
        | _read_loop _ _ ?b1 = _ =>
            assert (E : stream b1 = stream b);
            [ unfold stream; cbn;
              destruct (incoming (serialPortOrig b)) as [|[|? ?] ?] eqn:Hi;
              cbn; rewrite ?Hi; reflexivity
            | apply IH in H; rewrite E in H; exact H ]
        end.
Qed.

(** X1.  A read loses no byte and invents none: when it returns a
    response, the bytes of that response followed by what the bus has
    still to read are what it had to read before; in every other case
    (no response within the deadline, an error, a wait without end) what
    it has to read is unchanged. *)
Theorem read_conserves_stream (t : Deadline) (b b' : slcanBus)
    (r : result (option str)) :
  _read t b = (r, b') ->
  match r with
  | Ok (Some s) =>
      exists seg, decode seg = Ok s /\ seg ++ stream b' = stream b
  | _ => stream b' = stream b
  end.
Proof.
  unfold _read, error_check. intro H.
  destruct (_read_loop (rounds t b) t b) as [r0 b0] eqn:E.
  apply _read_loop_stream in E.
  destruct r0 as [[s|]| |]; injection H as <- <-; exact E.
Qed.

Lemma read_conserves_stream_witness :
  exists seg,
    decode seg = Ok (lit "t12" ++ [13%N]) /\
    seg ++ stream (with_port (set_incoming [ascii_bytes "r"])
                     (with_buffer (ascii_bytes "T") sample_bus))
    = stream (with_port (set_incoming [ascii_bytes "2" ++ [x0d] ++
                                       ascii_bytes "T"; ascii_bytes "r"])
                (with_buffer (ascii_bytes "t1") sample_bus)).
Proof.
  exact (read_conserves_stream (Polls 3)
           (with_port (set_incoming [ascii_bytes "2" ++ [x0d] ++
                                     ascii_bytes "T"; ascii_bytes "r"])
              (with_buffer (ascii_bytes "t1") sample_bus))
           (with_port (set_incoming [ascii_bytes "r"])
              (with_buffer (ascii_bytes "T") sample_bus))
           (Ok (Some (lit "t12" ++ [13%N]))) eq_refl).
Defined.

(** A silent line: no terminator in the buffer and nothing to come. *)
Lemma _read_loop_silent (n : nat) (b : slcanBus) :
  is_open (serialPortOrig b) = true ->
  no_terminator (_buffer b) = true ->
  incoming (serialPortOrig b) = [] ->
  _read_loop (S n) (Polls n) b = (Ok None, b) /\
  _read_loop (S n) Never b = (Hang, b).
Proof.
  intros Hopen Hno Hinc.
  assert (Hstep : forall (k : M (option str)),
            (in_waiting <-- port_in_waiting ;;
             (if in_waiting >? 0 then
                new_bytes <-- port_read in_waiting ;;
                modify (fun b => with_buffer (_buffer b ++ new_bytes) b)
              else sleep) ;;; k) b
            = k (with_port (fun p => p) b)).
  { intro k. unfold bind at 1. unfold port_in_waiting at 1.
    rewrite Hopen, Hinc. cbn [hd len length Z.of_nat Z.gtb Z.compare].
    unfold bind at 1. unfold sleep, modify.
    f_equal. unfold with_port. now rewrite Hinc. }
  assert (Hid : with_port (fun p => p) b = b) by now destruct b.
  split.
  - induction n as [|n IH]; [reflexivity|].
    rewrite _read_loop_poll by (assumption || reflexivity).
    rewrite Hstep, Hid. exact IH.
  - induction n as [|n IH].
    + rewrite _read_loop_poll by (assumption || reflexivity).
      now rewrite Hstep, Hid.
    + rewrite _read_loop_poll by (assumption || reflexivity).
      rewrite Hstep, Hid. exact IH.
Qed.

(** X2.  With no terminator in the buffer and nothing arriving on an
    open port, a read with a deadline returns no response and leaves the
    bus as it was; a read without a deadline never returns.  On a port
    that is not open such a read raises an operation error, unless its
    deadline has passed already. *)
Theorem read_on_silent_line (n : nat) (b : slcanBus) :
  no_terminator (_buffer b) = true ->
  (is_open (serialPortOrig b) = true ->
   incoming (serialPortOrig b) = [] ->
   _read (Polls n) b = (Ok None, b) /\ _read Never b = (Hang, b)) /\
  (is_open (serialPortOrig b) = false ->
   _read (Polls (S n)) b
   = (Raise (CanOperationError "Could not read from serial device"), b) /\
   _read Never b
   = (Raise (CanOperationError "Could not read from serial device"), b)).
Proof.
  intro Hno. split.
  - intros Hopen Hinc. unfold _read, error_check, rounds.
    rewrite Hinc. cbn [length].
    destruct (_read_loop_silent n b Hopen Hno Hinc) as [H1 _].
    destruct (_read_loop_silent 0 b Hopen Hno Hinc) as [_ H2].
    now rewrite H1, H2.
  - intro Hclosed. unfold _read, error_check, rounds.
    rewrite !_read_loop_poll by (assumption || reflexivity).
    unfold bind, port_in_waiting. now rewrite Hclosed.
Qed.

Lemma read_on_silent_line_witness :
  (_read (Polls 7) (with_buffer (ascii_bytes "t12") sample_bus)
   = (Ok None, with_buffer (ascii_bytes "t12") sample_bus) /\
   _read Never (with_buffer (ascii_bytes "t12") sample_bus)
   = (Hang, with_buffer (ascii_bytes "t12") sample_bus)) /\
  (_read (Polls 8) (with_port (set_is_open false) sample_bus)
   = (Raise (CanOperationError "Could not read from serial device"),
      with_port (set_is_open false) sample_bus) /\
   _read Never (with_port (set_is_open false) sample_bus)
   = (Raise (CanOperationError "Could not read from serial device"),
      with_port (set_is_open false) sample_bus)).
Proof.
  split.
  - exact (proj1 (read_on_silent_line 7
                    (with_buffer (ascii_bytes "t12") sample_bus) eq_refl)
             eq_refl eq_refl).
  - exact (proj2 (read_on_silent_line 7
                    (with_port (set_is_open false) sample_bus) eq_refl)
             eq_refl).
Defined.

End FramerInvariants.


(* ===================================================================== *)
(** * More on receiving *)
(* ===================================================================== *)

Section Receiving.

Ltac prefix_tests :=
  repeat match goal with
         | |- context [N.eqb (ord ?a) (ord ?b)] =>
             let v := eval vm_compute in (N.eqb (ord a) (ord b)) in
             change (N.eqb (ord a) (ord b)) with v
         end;
  cbv beta iota; cbn [orb].

Lemma parse_frame_no_frame (s : str) :
  no_frame s = true -> parse_frame s = Ok None.
Proof.
  destruct s as [|c s]; [reflexivity|].
  unfold no_frame. intro H. apply negb_true_iff in H.
  cbv [frame_prefixes lit list_ascii_of_string map] in H.
  cbn [existsb] in H.
  repeat (apply orb_false_elim in H; let E := fresh "E" in destruct H as [E H]).
  unfold parse_frame.
  repeat match goal with
         | E : N.eqb c ?x = false |- _ => rewrite E; clear E
         end.
  reflexivity.
Qed.

(** X3.  A response that does not start with a frame prefix (an
    acknowledgement, an error bell, the answer to a query) gives no
    message, and it is gone from the buffer afterwards. *)
Theorem recv_drops_other_responses (t : Deadline) (b : slcanBus)
    (pre post : bytes) (x : byte) (s : str) :
  expired t = false ->
  _buffer b = pre ++ x :: post ->
  no_terminator pre = true -> is_terminator x = true ->
  decode (pre ++ [x]) = Ok s ->
  no_frame s = true ->
  _recv_internal t b = (Ok (None, false), with_buffer post b).
Proof.
  intros Ht Hbuf Hpre Hx Hdec Hno.
  unfold _recv_internal, bind.
  rewrite (_read_found t b pre post x Ht Hbuf Hpre Hx), Hdec.
  unfold lift. now rewrite (parse_frame_no_frame s Hno).
Qed.

Lemma recv_drops_other_responses_witness :
  _recv_internal (Polls 2)
    (with_buffer (ascii_bytes "V1234" ++ [x0d] ++ [x07]) sample_bus)
  = (Ok (None, false),
     with_buffer [x07]
       (with_buffer (ascii_bytes "V1234" ++ [x0d] ++ [x07]) sample_bus)).
Proof.
  exact (recv_drops_other_responses (Polls 2)
           (with_buffer (ascii_bytes "V1234" ++ [x0d] ++ [x07]) sample_bus)
           (ascii_bytes "V1234") [x07] x0d (lit "V1234" ++ [13%N])
           eq_refl eq_refl eq_refl eq_refl eq_refl eq_refl).
Defined.

Lemma _read_port (t : Deadline) (b b' : slcanBus)
    (r : result (option str)) :
  _read t b = (r, b') ->
  is_open (serialPortOrig b') = is_open (serialPortOrig b) /\
  write_timeout (serialPortOrig b') = write_timeout (serialPortOrig b) /\
  _listen_only b' = _listen_only b /\
  _is_shutdown b' = _is_shutdown b.
Proof.
  unfold _read, error_check. intro H.
  assert (Hloop : forall fuel t b b' r,
            _read_loop fuel t b = (r, b') ->
            is_open (serialPortOrig b') = is_open (serialPortOrig b) /\
            write_timeout (serialPortOrig b')
            = write_timeout (serialPortOrig b) /\
            _listen_only b' = _listen_only b /\
            _is_shutdown b' = _is_shutdown b).
  { clear. induction fuel as [|fuel IH]; intros t b b' r H.
    - cbn in H. injection H as _ <-. now repeat split.
    - cbn [_read_loop] in H.
      destruct (expired t); [injection H as _ <-; now repeat split|].
      unfold bind at 1 in H. unfold gets at 1 in H.
      destruct (negb (find (_buffer b) _ERROR =? -1)
                || negb (find (_buffer b) _OK =? -1)).
      + unfold bind, lift, modify, ret in H.
        destruct (py_min _);
          try (injection H as _ <-; now repeat split).
        destruct (decode _); injection H as _ <-; now repeat split.
      + unfold bind at 1 in H. unfold port_in_waiting at 1 in H.
        destruct (is_open (serialPortOrig b)) eqn:Hopen;
          [|injection H as _ <-; now repeat split].
        destruct (len (hd [] (incoming (serialPortOrig b))) >? 0).
        * unfold bind at 1 in H. unfold bind at 1 in H.
          unfold port_read at 1 in H. rewrite Hopen in H.
          unfold modify at 1 in H.
          apply IH in H. cbn in H. rewrite ?Hopen in H. exact H.
        * unfold bind at 1 in H. unfold sleep at 1 in H.
          unfold modify at 1 in H.
          apply IH in H. cbn in H.
          destruct (incoming (serialPortOrig b)) as [|[|? ?] ?];
            cbn in H; rewrite ?Hopen in H; exact H. }
  destruct (_read_loop (rounds t b) t b) as [r0 b0] eqn:E.
  apply Hloop in E.
  destruct r0; injection H as _ <-; exact E.
Qed.

(** X4.  Receiving never writes to the line and never opens or closes
    the port, whatever it returns or raises. *)
Theorem recv_never_writes (t : Deadline) (b b' : slcanBus)
    (r : result (option Message * bool)) :
  _recv_internal t b = (r, b') ->
  written (serialPortOrig b') = written (serialPortOrig b) /\
  is_open (serialPortOrig b') = is_open (serialPortOrig b).
Proof.
  unfold _recv_internal, bind. intro H.
  destruct (_read t b) as [r0 b0] eqn:E.
  pose proof (_read_written t b b0 r0 E) as Hw.
  destruct (_read_port t b b0 r0 E) as [Ho _].
  destruct r0 as [[s|]| |]; unfold lift, gets, ret in H.
  - destruct (parse_frame s) as [[f|]| |];
      injection H as _ <-; now split.
  - injection H as _ <-. now split.
  - injection H as _ <-. now split.
  - injection H as _ <-. now split.
Qed.

Lemma recv_never_writes_witness :
  written (serialPortOrig
    (with_buffer [] (emit (ascii_bytes "O") sample_bus)))
  = written (serialPortOrig
      (with_buffer (ascii_bytes "tZZZ0" ++ [x0d])
         (emit (ascii_bytes "O") sample_bus))) /\
  is_open (serialPortOrig
    (with_buffer [] (emit (ascii_bytes "O") sample_bus)))
  = is_open (serialPortOrig
      (with_buffer (ascii_bytes "tZZZ0" ++ [x0d])
         (emit (ascii_bytes "O") sample_bus))).
Proof.
  exact (recv_never_writes Never
           (with_buffer (ascii_bytes "tZZZ0" ++ [x0d])
              (emit (ascii_bytes "O") sample_bus))
           (with_buffer [] (emit (ascii_bytes "O") sample_bus))
           (Raise ValueError) eq_refl).
Defined.

Lemma index_out_of_range {A} (s : list A) (i : Z) :
  len s <= i -> index s i = Raise IndexError.
Proof.
  intro H. unfold index, len in *.
  destruct (Z.ltb_spec i 0) as [?|_]; [lia|].
  destruct (Z.ltb_spec i 0) as [?|_]; [lia|].
  destruct (nth_error s (Z.to_nat i)) eqn:E; [|reflexivity].
  assert (nth_error s (Z.to_nat i) <> None) as Hn by congruence.
  apply nth_error_Some in Hn. lia.
Qed.

(** X5.  A response that starts with a frame prefix and whose identifier
    reads as a number, but that ends before its length character, makes
    [_recv_internal] raise [IndexError]; the response has left the
    buffer. *)
Theorem recv_truncated_frame (t : Deadline) (b : slcanBus)
    (pre post : bytes) (x : byte) (p : N) (s : str) (id : Z) :
  expired t = false ->
  _buffer b = pre ++ x :: post ->
  no_terminator pre = true -> is_terminator x = true ->
  decode (pre ++ [x]) = Ok (p :: s) ->
  In p frame_prefixes ->
  len (p :: s) <= 1 + id_width p ->
  int (slice (p :: s) 1 (1 + id_width p)) 16 = Ok id ->
  _recv_internal t b = (Raise IndexError, with_buffer post b).
Proof.
  intros Ht Hbuf Hpre Hx Hdec Hp Hlen Hint.
  unfold _recv_internal, bind.
  rewrite (_read_found t b pre post x Ht Hbuf Hpre Hx), Hdec.
  unfold lift.
  assert (Hparse : parse_frame (p :: s) = Raise IndexError).
  { cbv [frame_prefixes lit list_ascii_of_string map] in Hp. cbn [In] in Hp.
    unfold char_at in *.
    repeat (destruct Hp as [<-|Hp];
            [ unfold parse_frame; prefix_tests;
              change (id_width _) with 3 in Hint, Hlen
              || change (id_width _) with 8 in Hint, Hlen;
              cbn [Z.add Pos.add Pos.succ] in Hint, Hlen;
              rewrite Hint; cbn [rbind]; unfold char_at;
              rewrite index_out_of_range by exact Hlen; reflexivity | ]).
    contradiction. }
  now rewrite Hparse.
Qed.

Lemma recv_truncated_frame_witness :
  _recv_internal Never (with_buffer (ascii_bytes "T12" ++ [x0d]) sample_bus)
  = (Raise IndexError,
     with_buffer [] (with_buffer (ascii_bytes "T12" ++ [x0d]) sample_bus)).
Proof.
  apply (recv_truncated_frame Never
           (with_buffer (ascii_bytes "T12" ++ [x0d]) sample_bus)
           (ascii_bytes "T12") [] x0d (ord "T") (lit "12" ++ [13%N]) 18);
    try reflexivity.
  - cbv [frame_prefixes lit list_ascii_of_string map]. cbn [In]. tauto.
  - discriminate.
Defined.

End Receiving.


(* ===================================================================== *)
(** * More on the queries *)
(* ===================================================================== *)

Section QueryResults.

Lemma sendStr_head (m : Message) :
  exists p tl,
    sendStr m = p :: tl /\ existsb (N.eqb p) (lit "tTrRdDbB") = true.
Proof.
  unfold sendStr.
  repeat match goal with
         | |- context [if ?c then _ else _] => destruct c
         end;
    cbn [lit list_ascii_of_string map app];
    eexists _, _; split; reflexivity.
Qed.

Lemma slice_to_1 (c : N) (s : str) : slice_to (c :: s) 1 = [c].
Proof.
  unfold slice_to, slice, clamp, len. cbn [length].
  destruct (Z.ltb_spec 0 0) as [?|_]; [lia|].
  destruct (Z.ltb_spec 1 0) as [?|_]; [lia|].
  rewrite !Z.min_l by lia. reflexivity.
Qed.

(** X6.  A frame that waits in the buffer when a query is made is taken
    for the answer: [get_version] and [get_serial_number] write their
    command, return the unknown result, and the frame is gone from the
    buffer. *)
Theorem query_drops_frame (m : Message) (t : Deadline) (b : slcanBus)
    (rest : bytes) :
  is_open (serialPortOrig b) = true ->
  expired t = false ->
  _buffer b = line (sendStr m) ++ rest ->
  get_version t b
  = (Ok (None, None), with_buffer rest (emit (line (lit "V")) b)) /\
  get_serial_number t b
  = (Ok None, with_buffer rest (emit (line (lit "N")) b)).
Proof.
  intros Hopen Ht Hbuf.
  pose proof (sendStr_printable m) as Hp.
  unfold line at 1, LINE_TERMINATOR in Hbuf.
  rewrite <- app_assoc in Hbuf. cbn [app] in Hbuf.
  destruct (sendStr_head m) as (p & tl & Hs & Hpre).
  assert (Hread : forall cmd,
            _read t (emit (line cmd) b)
            = (Ok (Some (p :: tl ++ [13%N])),
               with_buffer rest (emit (line cmd) b))).
  { intro cmd.
    rewrite (_read_found t (emit (line cmd) b) _ _ _ Ht Hbuf
               (printable_no_terminator _ Hp) eq_refl).
    rewrite (decode_printable _ [x0d] Hp).
    change (decode [x0d]) with (Ok [13%N]). cbn [rbind].
    now rewrite Hs. }
  assert (Hv : str_eqb [p] (lit "V") = false /\ str_eqb [p] (lit "N") = false).
  { cbv [lit list_ascii_of_string map] in Hpre. cbn [existsb] in Hpre.
    repeat (apply orb_prop in Hpre; destruct Hpre as [Hpre|Hpre];
            [apply N.eqb_eq in Hpre; subst p; now split|]).
    discriminate. }
  destruct Hv as [Hv Hn].
  split.
  - unfold get_version.
    rewrite (bind_Ok _ _ _ _ _ (_write_emit (lit "V") b Hopen eq_refl)).
    rewrite (bind_Ok _ _ _ _ _ (Hread (lit "V"))).
    unfold bind, lift, char_at. cbn [index len length Z.ltb Z.compare
      Z.to_nat nth_error rbind app]. now rewrite Hv.
  - unfold get_serial_number.
    rewrite (bind_Ok _ _ _ _ _ (_write_emit (lit "N") b Hopen eq_refl)).
    rewrite (bind_Ok _ _ _ _ _ (Hread (lit "N"))).
    unfold bind, lift, char_at. cbn [index len length Z.ltb Z.compare
      Z.to_nat nth_error rbind app]. now rewrite Hn.
Qed.

Lemma query_drops_frame_witness :
  get_version (Polls 1)
    (with_buffer (line (sendStr sample_message) ++ [x07]) sample_bus)
  = (Ok (None, None),
     with_buffer [x07]
       (emit (line (lit "V"))
          (with_buffer (line (sendStr sample_message) ++ [x07])
             sample_bus))) /\
  get_serial_number (Polls 1)
    (with_buffer (line (sendStr sample_message) ++ [x07]) sample_bus)
  = (Ok None,
     with_buffer [x07]
       (emit (line (lit "N"))
          (with_buffer (line (sendStr sample_message) ++ [x07])
             sample_bus))).
Proof.
  exact (query_drops_frame sample_message (Polls 1)
           (with_buffer (line (sendStr sample_message) ++ [x07]) sample_bus)
           [x07] eq_refl eq_refl eq_refl).
Defined.

(** X7.  [get_serial_number] writes the command [N] and reads one
    response.  For a response of six characters that starts with [N] it
    returns the four characters between the [N] and the last character;
    for a response of another length or one that starts with another
    character it returns nothing. *)
Theorem get_serial_number_reply (t : Deadline) (b b' : slcanBus)
    (body : str) (last : N) :
  is_open (serialPortOrig b) = true ->
  length body = 4%nat ->
  _read t (emit (line (lit "N")) b)
  = (Ok (Some (ord "N" :: body ++ [last])), b') ->
  get_serial_number t b = (Ok (Some body), b') /\
  (forall (t' : Deadline) (c c' : slcanBus) (reply : str),
      is_open (serialPortOrig c) = true ->
      _read t' (emit (line (lit "N")) c) = (Ok (Some reply), c') ->
      len reply <> 6 \/ slice_to reply 1 <> lit "N" ->
      get_serial_number t' c = (Ok None, c')).
Proof.
  intros Hopen Hlen Hread.
  assert (Hrun : forall t b b' reply,
            is_open (serialPortOrig b) = true ->
            _read t (emit (line (lit "N")) b) = (Ok (Some reply), b') ->
            get_serial_number t b
            = match reply with
              | [] => (Ok None, b')
              | c :: _ =>
                  if str_eqb [c] (lit "N") && (len reply =? 6)
                  then (Ok (Some (slice reply 1 (-1))), b')
                  else (Ok None, b')
              end).
  { clear. intros t b b' reply Hopen Hread. unfold get_serial_number.
    rewrite (bind_Ok _ _ _ _ _ (_write_emit (lit "N") b Hopen eq_refl)).
    rewrite (bind_Ok _ _ _ _ _ Hread).
    destruct reply as [|c reply]; [reflexivity|].
    unfold bind, lift, ret, char_at.
    cbn [index len length Z.ltb Z.compare Z.to_nat nth_error rbind].
    now destruct (str_eqb [c] (lit "N") && _). }
  split.
  - rewrite (Hrun _ _ _ _ Hopen Hread).
    replace (str_eqb [ord "N"] (lit "N")) with true by reflexivity.
    assert (Hl : len (ord "N" :: body ++ [last]) = 6).
    { unfold len. cbn [length]. rewrite length_app. cbn [length]. lia. }
    rewrite Hl. cbn [andb Z.eqb Pos.eqb]. f_equal. f_equal. f_equal.
    unfold slice, clamp. rewrite Hl. cbn [Z.ltb Z.compare Z.add Z.max Z.min
      Z.sub Z.opp Z.pos_sub Pos.succ Z.succ_double Z.pred_double Z.double
      Pos.pred_double Pos.compare Pos.compare_cont Z.to_nat].
    change (Pos.to_nat 1) with 1%nat. change (Pos.to_nat 4) with 4%nat.
    cbn [skipn]. rewrite <- Hlen.
    now rewrite firstn_app, firstn_all, Nat.sub_diag, firstn_O, app_nil_r.
  - intros t' c c' reply Hc Hr H. rewrite (Hrun _ _ _ _ Hc Hr).
    destruct reply as [|x reply]; [reflexivity|].
    rewrite slice_to_1 in H.
    destruct H as [H|H].
    + destruct (Z.eqb_spec (len (x :: reply)) 6); [contradiction|].
      now rewrite andb_false_r.
    + unfold str_eqb. destruct (list_eq_dec N.eq_dec [x] (lit "N"));
        [contradiction|reflexivity].
Qed.

Lemma get_serial_number_reply_witness :
  get_serial_number (Polls 4)
    (with_port (set_incoming [ascii_bytes "NA1B2" ++ [x0d]]) sample_bus)
  = (Ok (Some (lit "A1B2")),
     emit (line (lit "N")) (with_port (set_incoming []) sample_bus)) /\
  (forall (t' : Deadline) (c c' : slcanBus) (reply : str),
      is_open (serialPortOrig c) = true ->
      _read t' (emit (line (lit "N")) c) = (Ok (Some reply), c') ->
      len reply <> 6 \/ slice_to reply 1 <> lit "N" ->
      get_serial_number t' c = (Ok None, c')).
Proof.
  exact (get_serial_number_reply (Polls 4)
           (with_port (set_incoming [ascii_bytes "NA1B2" ++ [x0d]]) sample_bus)
           (emit (line (lit "N")) (with_port (set_incoming []) sample_bus))
           (lit "A1B2") 13%N eq_refl eq_refl eq_refl).
Defined.

End QueryResults.


(* ===================================================================== *)
(** * More on frames *)
(* ===================================================================== *)

Section FrameSequences.



Lemma received_same_frame (m : Message) (now : Z) :
  well_formed m = true ->
  same_frame m
    (new_Message (arbitration_id m) (is_extended_id m) now
       (is_remote_frame m) (is_fd m) (bitrate_switch m) (dlc m)
       (if is_remote_frame m then None else Some (data m))).
Proof.
  intro Hwf. unfold same_frame, new_Message. cbn.
  repeat split.
  destruct (is_remote_frame m) eqn:Hrem; [|reflexivity].
  unfold well_formed in Hwf. rewrite Hrem in Hwf.
  apply andb_prop in Hwf. destruct Hwf as [Hwf _].
  apply andb_prop in Hwf. destruct Hwf as [_ Hwf].
  apply andb_prop in Hwf. destruct Hwf as [_ Hwf].
  destruct (data m); [reflexivity|discriminate].
Qed.

Lemma send_all_open (msgs : list Message) :
  forall b : slcanBus,
    is_open (serialPortOrig b) = true ->
    exists b',
      send_all msgs b = (Ok tt, b') /\
      written (serialPortOrig b') = written (serialPortOrig b) ++ wire msgs /\
      is_open (serialPortOrig b') = true.
Proof.
  induction msgs as [|m msgs IH]; intros b Hopen.
  - exists b. cbn. now rewrite app_nil_r.
  - destruct (send_open m None b Hopen eq_refl)
      as (b1 & Hsend & Hw & Hopen1 & _).
    destruct (IH b1 Hopen1) as (b' & Hall & Hw' & Hopen').
    exists b'. cbn [send_all]. rewrite (bind_Ok _ _ _ _ _ Hsend).
    repeat split; try assumption.
    rewrite Hw', Hw. unfold wire. cbn [map concat].
    now rewrite <- app_assoc.
Qed.

Lemma recv_n_sent (t : Deadline) (msgs : list Message) :
  forall (rx : slcanBus) (rest : bytes),
    Forall (fun m => well_formed m = true) msgs ->
    expired t = false ->
    _buffer rx = wire msgs ++ rest ->
    exists msgs',
      recv_n t (length msgs) rx
      = (Ok (map Some msgs'), with_buffer rest rx) /\
      Forall2 same_frame msgs msgs'.
Proof.
  induction msgs as [|m msgs IH]; intros rx rest Hwf Ht Hbuf.
  - exists []. split; [|constructor]. cbn in *. unfold ret.
    f_equal. destruct rx. cbn in *. now subst.
  - inversion Hwf as [|? ? Hm Hms]; subst.
    unfold wire in Hbuf. cbn [map concat] in Hbuf.
    rewrite <- app_assoc in Hbuf. fold (wire msgs) in Hbuf.
    pose proof (_recv_internal_sent m t rx (wire msgs ++ rest) Hm Ht Hbuf)
      as Hrecv.
    destruct (IH (with_buffer (wire msgs ++ rest) rx) rest Hms Ht eq_refl)
      as (msgs' & Hn & Hsame).
    eexists (_ :: msgs'). split.
    + cbn [length recv_n]. rewrite (bind_Ok _ _ _ _ _ Hrecv).
      rewrite (bind_Ok _ _ _ _ _ Hn). reflexivity.
    + constructor; [|exact Hsame]. now apply received_same_frame.
Qed.

(** X9.  A burst of well-formed messages comes back whole and in order:
    sent one after the other they go on the line as their commands in
    sequence, and as many calls of [_recv_internal] on these bytes return
    the messages, each equal to the one sent on all fields but timestamp
    and channel, and leave what follows them in the buffer. *)
Theorem burst_round_trip (msgs : list Message) (tx rx : slcanBus)
    (t : Deadline) (rest : bytes) :
  Forall (fun m => well_formed m = true) msgs ->
  is_open (serialPortOrig tx) = true ->
  expired t = false ->
  _buffer rx = wire msgs ++ rest ->
  exists tx' msgs',
    send_all msgs tx = (Ok tt, tx') /\
    written (serialPortOrig tx') = written (serialPortOrig tx) ++ wire msgs /\
    recv_n t (length msgs) rx = (Ok (map Some msgs'), with_buffer rest rx) /\
    Forall2 same_frame msgs msgs'.
Proof.
  intros Hwf Hopen Ht Hbuf.
  destruct (send_all_open msgs tx Hopen) as (tx' & Hsend & Hw & _).
  destruct (recv_n_sent t msgs rx rest Hwf Ht Hbuf) as (msgs' & Hn & Hsame).
  now exists tx', msgs'.
Qed.

Lemma burst_round_trip_witness :
  exists tx' msgs',
    send_all [sample_message; sample_remote; sample_fd] sample_bus
    = (Ok tt, tx') /\
    written (serialPortOrig tx')
    = written (serialPortOrig sample_bus)
      ++ wire [sample_message; sample_remote; sample_fd] /\
    recv_n (Polls 1) (length [sample_message; sample_remote; sample_fd])
      (with_buffer (wire [sample_message; sample_remote; sample_fd] ++ [x07])
         sample_bus)
    = (Ok (map Some msgs'),
       with_buffer [x07]
         (with_buffer
            (wire [sample_message; sample_remote; sample_fd] ++ [x07])
            sample_bus)) /\
    Forall2 same_frame [sample_message; sample_remote; sample_fd] msgs'.
Proof.
  refine (burst_round_trip [sample_message; sample_remote; sample_fd]
            sample_bus
            (with_buffer
               (wire [sample_message; sample_remote; sample_fd] ++ [x07])
               sample_bus)
            (Polls 1) [x07] _ eq_refl eq_refl eq_refl).
  repeat constructor.
Defined.

(** X10.  [encode_dlc_hex] gives one nibble character for every integer,
    and decoding it gives the integer back when it is a canonical size
    and 64 otherwise. *)
Theorem dlc_encode_then_decode (n : Z) :
  exists c,
    encode_dlc_hex n = [c] /\ In c nibbles /\
    decode_hex_dlc [c]
    = Ok (if existsb (Z.eqb n) canonical_lengths then n else 64).
Proof.
  destruct (existsb (Z.eqb n) canonical_lengths) eqn:E.
  - apply existsb_exists in E. destruct E as [k [Hk E]].
    apply Z.eqb_eq in E. subst k.
    unfold canonical_lengths in Hk. cbn [In] in Hk.
    repeat (destruct Hk as [<-|Hk];
            [eexists; split; [reflexivity|];
             split; [cbv [nibbles lit list_ascii_of_string map]; cbn [In];
                     tauto|reflexivity]|]).
    contradiction.
  - exists (ord "F"). rewrite encode_dlc_hex_other.
    + split; [reflexivity|].
      split; [cbv [nibbles lit list_ascii_of_string map]; cbn [In]; tauto|].
      reflexivity.
    + intro H.
      assert (existsb (Z.eqb n) canonical_lengths = true); [|congruence].
      apply existsb_exists. exists n. split; [exact H|apply Z.eqb_refl].
Qed.

End FrameSequences.


Section ShortFdFrames.

Ltac run_prefix_tests :=
  repeat match goal with
         | |- context [N.eqb (ord ?a) (ord ?b)] =>
             let v := eval vm_compute in (N.eqb (ord a) (ord b)) in
             change (N.eqb (ord a) (ord b)) with v
         end;
  cbv beta iota; cbn [orb].

Lemma parse_padded_fd (m : Message) :
  is_fd m = true ->
  0 <= arbitration_id m < (if is_extended_id m then 2 ^ 29 else 2 ^ 11) ->
  dlc m = len (data m) -> len (data m) < 64 ->
  encode_dlc_hex (dlc m) = lit "F" ->
  parse_frame (sendStr m ++ [13%N])
  = Ok (Some {| canId := arbitration_id m; f_dlc := 64; remote := false;
                extended := is_extended_id m; f_is_fd := true;
                f_bitrate_switch := bitrate_switch m;
                f_data := Some (data m ++
                                repeat x00 (Z.to_nat (64 - len (data m)))) |}).
Proof.
  destruct m as [ts id ext rem fd brs n bs ch].
  cbn [arbitration_id is_extended_id is_remote_frame is_fd bitrate_switch
       dlc data].
  intros -> Hid Hn Hlt Henc.
  set (payload := bs ++ repeat x00 (Z.to_nat (64 - len bs))).
  assert (Hpay : upper (hex bs) ++ str_mul (lit "00") (64 - n)
                 = upper (hex payload)).
  { subst payload. rewrite !upper_hex, flat_map_app, hex_zeros.
    unfold str_mul. now rewrite Hn. }
  assert (Hhex : len (upper (hex payload)) = 128).
  { rewrite length_upper_hex. subst payload. unfold len in *.
    rewrite length_app, repeat_length. lia. }
  assert (Hw : exists w : nat, (w = if ext then 8 else 3)%nat) by eauto.
  destruct Hw as [w Hw].
  destruct (id_text w id) as [Hlen Hint].
  { destruct ext; subst w; lia. }
  { destruct ext; subst w; simpl in *; lia. }
  unfold sendStr.
  cbn [arbitration_id is_extended_id is_remote_frame is_fd bitrate_switch
       dlc data].
  rewrite Henc.
  replace (n <? 64) with true by (symmetry; apply Z.ltb_lt; lia).
  replace (str_eqb (lit "F") (lit "F")) with true by reflexivity.
  cbn [andb].
  destruct brs, ext; subst w;
    rewrite <- (app_assoc _ (upper (hex bs))), Hpay;
    cbn [lit list_ascii_of_string map app]; rewrite <- ?app_assoc;
    cbn [app];
    unfold parse_frame; run_prefix_tests;
    rewrite (id_field _ _ _ _ _ _ Hlen) by reflexivity;
    rewrite Hint; cbn [rbind];
    rewrite (dlc_field _ _ _ _ _ _ Hlen) by reflexivity; cbn [rbind];
    change (decode_hex_dlc [ord "F"]) with (Ok 64); cbn [rbind];
    rewrite (data_field _ _ _ _ _ _ Hlen) by (reflexivity || lia);
    rewrite fromhex_upper_hex; reflexivity.
Qed.

(** X11.  An FD message whose number of data bytes is below 64 and no
    canonical size is sent with the nibble [F] and zero padding, and so
    it comes back changed: with length code 64 and with its data followed
    by zero bytes up to 64; the identifier, the extended flag and the
    bitrate switch are those sent, and it is no remote frame. *)
Theorem fd_odd_length_comes_back_padded (m : Message) (t : Deadline)
    (rx : slcanBus) (rest : bytes) :
  is_fd m = true ->
  0 <= arbitration_id m < (if is_extended_id m then 2 ^ 29 else 2 ^ 11) ->
  dlc m = len (data m) -> len (data m) < 64 ->
  encode_dlc_hex (dlc m) = lit "F" ->
  expired t = false ->
  _buffer rx = line (sendStr m) ++ rest ->
  _recv_internal t rx
  = (Ok (Some (new_Message (arbitration_id m) (is_extended_id m)
                 (wall_clock rx) false true (bitrate_switch m) 64
                 (Some (data m ++
                        repeat x00 (Z.to_nat (64 - len (data m)))))),
         false),
     with_buffer rest rx).
Proof.
  intros Hfd Hid Hn Hlt Henc Ht Hbuf.
  pose proof (sendStr_printable m) as Hp.
  unfold line, LINE_TERMINATOR in Hbuf.
  rewrite <- app_assoc in Hbuf. cbn [app] in Hbuf.
  unfold _recv_internal, bind.
  rewrite (_read_found t rx _ _ _ Ht Hbuf (printable_no_terminator _ Hp) eq_refl).
  rewrite (decode_printable _ [x0d] Hp).
  change (decode [x0d]) with (Ok [13%N]). cbn [rbind].
  unfold lift. rewrite (parse_padded_fd m Hfd Hid Hn Hlt Henc).
  reflexivity.
Qed.

Lemma fd_odd_length_comes_back_padded_witness :
  _recv_internal (Polls 1)
    (with_buffer (line (sendStr sample_fd_odd)) sample_bus)
  = (Ok (Some (new_Message 291 false 0 false true false 64
                 (Some (repeat x11 10 ++ repeat x00 54))),
         false),
     with_buffer [] (with_buffer (line (sendStr sample_fd_odd)) sample_bus)).
Proof.
  apply (fd_odd_length_comes_back_padded sample_fd_odd (Polls 1)
           (with_buffer (line (sendStr sample_fd_odd)) sample_bus) []);
    try reflexivity.
  cbn. lia.
Defined.

End ShortFdFrames.


(* ===================================================================== *)
(** * More on construction *)
(* ===================================================================== *)

Section ConstructionEdges.

Variable serial_for_url : str -> Z -> bool -> Z -> result Serial.
Variable check : BitTiming -> list Z -> result BitTiming.
Variable check_fd : BitTimingFd -> list Z -> result BitTimingFd.

Lemma length_split (sep : N) (s : str) :
  length (split sep s) = S (occurrences sep s).
Proof.
  unfold occurrences. induction s as [|c s IH]; [reflexivity|].
  cbn [split filter]. destruct (N.eqb c sep).
  - cbn [length]. now rewrite IH.
  - destruct (split sep s) as [|w ws]; [discriminate|]. exact IH.
Qed.

Lemma existsb_occurrences (sep : N) (s : str) :
  existsb (N.eqb sep) s = negb (Nat.eqb (occurrences sep s) 0).
Proof.
  unfold occurrences. induction s as [|c s IH]; [reflexivity|].
  cbn [existsb filter]. rewrite (N.eqb_sym sep c).
  destruct (N.eqb c sep); [reflexivity|exact IH].
Qed.

Lemma split_once (sep : N) (a b : str) :
  occurrences sep a = 0%nat -> occurrences sep b = 0%nat ->
  split sep (a ++ sep :: b) = [a; b].
Proof.
  unfold occurrences. intros Ha Hb.
  assert (Hsplit : split sep b = [b]).
  { clear Ha. induction b as [|c b IH]; [reflexivity|].
    cbn [filter] in Hb. cbn [split].
    destruct (N.eqb c sep); [discriminate|]. now rewrite IH. }
  induction a as [|c a IH].
  - cbn [app split]. now rewrite N.eqb_refl, Hsplit.
  - cbn [filter] in Ha. cbn [app split].
    destruct (N.eqb c sep); [discriminate|]. now rewrite IH.
Qed.

(** X12.  The constructor refuses, before the serial library is asked to
    open anything, when that library is not installed
    ([CanInterfaceNotImplementedError]), when the channel is empty, when
    it holds more than one [@], and when what follows its only [@] is no
    decimal number ([ValueError] in these three cases).  The port
    attribute of the object is as it was. *)
Theorem construction_refusals
    (channel name baud : str) (tty_baudrate sleep_after_open timeout : Z)
    (bitrate : option Z) (timing : timing_arg) (btr : option str)
    (rtscts listen_only : bool) (self : slcanBus) (e : exn) :
  let construct serial channel :=
    __init__ serial check check_fd channel tty_baudrate bitrate timing
      sleep_after_open rtscts listen_only timeout btr self in
  (fst (construct None channel) = Raise CanInterfaceNotImplementedError /\
   serialPortOrig (snd (construct None channel)) = serialPortOrig self) /\
  (fst (construct (Some serial_for_url) []) = Raise ValueError /\
   serialPortOrig (snd (construct (Some serial_for_url) []))
   = serialPortOrig self) /\
  ((2 <= occurrences (ord "@") channel)%nat ->
   fst (construct (Some serial_for_url) channel) = Raise ValueError /\
   serialPortOrig (snd (construct (Some serial_for_url) channel))
   = serialPortOrig self) /\
  (occurrences (ord "@") name = 0%nat ->
   occurrences (ord "@") baud = 0%nat ->
   int baud 10 = Raise e ->
   fst (construct (Some serial_for_url) (name ++ ord "@" :: baud)) = Raise e /\
   serialPortOrig
     (snd (construct (Some serial_for_url) (name ++ ord "@" :: baud)))
   = serialPortOrig self).
Proof.
  intro construct. subst construct. cbv beta.
  split; [|split; [|split]].
  - now split.
  - now split.
  - intro H. unfold __init__.
    rewrite existsb_occurrences.
    destruct (occurrences (ord "@") channel) as [|[|k]] eqn:E; try lia.
    cbn [Nat.eqb negb].
    pose proof (length_split (ord "@") channel) as Hl. rewrite E in Hl.
    destruct channel as [|c channel]; [discriminate|].
    destruct (split (ord "@") (c :: channel)) as [|w1 [|w2 [|w3 ws]]];
      try discriminate.
    now split.
  - intros Hname Hbaud Hint. unfold __init__.
    rewrite existsb_occurrences.
    assert (E : occurrences (ord "@") (name ++ ord "@" :: baud) = 1%nat).
    { unfold occurrences in *. rewrite filter_app, length_app. cbn [filter].
      rewrite N.eqb_refl. cbn [length]. lia. }
    rewrite E. cbn [Nat.eqb negb].
    rewrite (split_once _ _ _ Hname Hbaud).
    unfold bind, modify, ret, lift. rewrite Hint.
    destruct (name ++ ord "@" :: baud) eqn:Hc.
    + destruct name; discriminate.
    + now split.
Qed.






End ConstructionEdges.

Lemma construction_refusals_witness :
  (fst (__init__ None accept_timing accept_timing_fd (lit "a@b@9") 115200
          (Some 500000) NoTiming 2 false false 1 None sample_bus)
   = Raise CanInterfaceNotImplementedError /\
   serialPortOrig
     (snd (__init__ None accept_timing accept_timing_fd (lit "a@b@9") 115200
             (Some 500000) NoTiming 2 false false 1 None sample_bus))
   = serialPortOrig sample_bus) /\
  (fst (__init__ sample_serial accept_timing accept_timing_fd [] 115200
          (Some 500000) NoTiming 2 false false 1 None sample_bus)
   = Raise ValueError /\
   serialPortOrig
     (snd (__init__ sample_serial accept_timing accept_timing_fd [] 115200
             (Some 500000) NoTiming 2 false false 1 None sample_bus))
   = serialPortOrig sample_bus) /\
  (fst (__init__ sample_serial accept_timing accept_timing_fd (lit "a@b@9")
          115200 (Some 500000) NoTiming 2 false false 1 None sample_bus)
   = Raise ValueError /\
   serialPortOrig
     (snd (__init__ sample_serial accept_timing accept_timing_fd
             (lit "a@b@9") 115200 (Some 500000) NoTiming 2 false false 1
             None sample_bus))
   = serialPortOrig sample_bus) /\
  (fst (__init__ sample_serial accept_timing accept_timing_fd
          (lit "COM1" ++ ord "@" :: lit "fast") 115200 (Some 500000)
          NoTiming 2 false false 1 None sample_bus)
   = Raise ValueError /\
   serialPortOrig
     (snd (__init__ sample_serial accept_timing accept_timing_fd
             (lit "COM1" ++ ord "@" :: lit "fast") 115200 (Some 500000)
             NoTiming 2 false false 1 None sample_bus))
   = serialPortOrig sample_bus).
Proof.
  pose proof (construction_refusals (fun _ _ _ _ => Ok sample_port)
                accept_timing accept_timing_fd (lit "a@b@9") (lit "COM1")
                (lit "fast") 115200 2 1 (Some 500000) NoTiming None
                false false sample_bus ValueError) as H.
  cbv zeta in H. destruct H as (H1 & H2 & H3 & H4).
  split; [exact H1|]. split; [exact H2|].
  split; [apply H3; vm_compute; lia|].
  apply H4; reflexivity.
Defined.




(* ===================================================================== *)
(** * Frames whose length digit and data disagree *)
(* ===================================================================== *)

Section DataLengths.

Lemma fromhex_upper_hex_then (bs : bytes) (s : str) :
  fromhex (upper (hex bs) ++ s)
  = rbind (fromhex s) (fun tl => Ok (bs ++ tl)).
Proof.
  rewrite upper_hex.
  induction bs as [|b bs IH].
  - cbn [flat_map app]. now destruct (fromhex s).
  - destruct (byte_nibbles b) as [Hhi Hlo].
    cbn [flat_map hex_pair app fromhex].
    pose proof (plain_digit_16 _ Hhi) as P. unfold plain_digit in P.
    repeat (apply andb_prop in P; destruct P as [P ?]).
    repeat match goal with
           | Q : negb _ = true |- _ => apply negb_true_iff in Q
           end.
    replace (is_space (digit_char (Byte.to_N b / 16))) with false
      by (symmetry; assumption).
    rewrite !digit_value_digit_char by assumption.
    destruct (N.ltb_spec (Byte.to_N b / 16) 16) as [_|?]; [|lia].
    destruct (N.ltb_spec (Byte.to_N b mod 16) 16) as [_|?]; [|lia].
    cbn [andb]. rewrite IH.
    replace (Byte.to_N b / 16 * 16 + Byte.to_N b mod 16)%N
      with (Byte.to_N b)
      by (rewrite N.mul_comm; apply N.div_mod; lia).
    rewrite byte_of_N_to_N.
    now destruct (fromhex s).
Qed.

Lemma slice_to_end {A} (pre a : list A) (hi : Z) :
  len pre + len a <= hi -> slice (pre ++ a) (len pre) hi = a.
Proof.
  intro H. unfold slice, clamp, len in *. rewrite length_app.
  destruct (Z.ltb_spec (Z.of_nat (length pre)) 0); [lia|].
  destruct (Z.ltb_spec hi 0); [lia|].
  rewrite (Z.min_r hi), (Z.min_l (Z.of_nat (length pre))) by lia.
  rewrite Nat2Z.id, skipn_app, skipn_all, Nat.sub_diag. cbn [skipn app].
  apply firstn_all2. lia.
Qed.

Lemma int_decimal_digit (d : N) :
  (d < 10)%N -> int [digit_char d] 10 = Ok (Z.of_N d).
Proof.
  intro H.
  assert (Hall : forall d, (d < N.of_nat 10)%N ->
            result_Z_eqb (int [digit_char d] 10) (Ok (Z.of_N d)) = true)
    by (apply below_forallb; reflexivity).
  specialize (Hall d H). unfold result_Z_eqb in Hall.
  destruct (int [digit_char d] 10); try discriminate.
  apply Z.eqb_eq in Hall. now subst.
Qed.

Ltac test_prefix :=
  repeat match goal with
         | |- context [N.eqb (ord ?a) (ord ?b)] =>
             let v := eval vm_compute in (N.eqb (ord a) (ord b)) in
             change (N.eqb (ord a) (ord b)) with v
         end;
  cbv beta iota; cbn [orb negb].

Lemma parse_classic_text (p : N) (id : Z) (d : N) (bs : bytes)
    (tail : str) :
  In p (lit "tTx") ->
  0 <= id < 16 ^ id_width p ->
  (d < 10)%N ->
  len bs = Z.of_N d \/ (len bs < Z.of_N d /\ tail = []) ->
  parse_frame (classic_text p id d bs tail ++ [13%N])
  = Ok (Some {| canId := id; f_dlc := Z.of_N d; remote := false;
                extended := negb (N.eqb p (ord "t")); f_is_fd := false;
                f_bitrate_switch := false; f_data := Some bs |}).
Proof.
  intros Hp Hid Hd Hcase.
  pose proof (int_decimal_digit d Hd) as Hdc.
  pose proof (length_upper_hex bs) as Hhex.
  assert (Hdata : forall (w : Z) (idstr : str) (lo : Z),
            len idstr = w -> lo = 2 + w ->
            fromhex (slice (p :: idstr ++ digit_char d
                             :: upper (hex bs) ++ tail ++ [13%N])
                       lo (lo + Z.of_N d * 2))
            = Ok bs).
  { intros w idstr lo Hlen ->.
    destruct Hcase as [Hfull|[Hshort ->]].
    - rewrite (data_field p (digit_char d) idstr (upper (hex bs))
                 (tail ++ [13%N]) w Hlen) by (reflexivity || lia).
      apply fromhex_upper_hex.
    - cbn [app].
      replace (p :: idstr ++ digit_char d :: upper (hex bs) ++ [13%N])
        with ((p :: idstr ++ [digit_char d]) ++ upper (hex bs) ++ [13%N])
        by (cbn [app]; now rewrite <- app_assoc).
      replace (2 + w) with (len (p :: idstr ++ [digit_char d]))
        by (unfold len in *; cbn [length]; rewrite length_app;
            cbn [length]; lia).
      rewrite slice_to_end.
      + rewrite fromhex_upper_hex_then. cbn. now rewrite app_nil_r.
      + unfold len in *. rewrite !length_app in *. cbn [length] in *. lia. }
  cbv [lit list_ascii_of_string map] in Hp. cbn [In] in Hp.
  unfold classic_text.
  destruct Hp as [<-|[<-|[<-|[]]]];
    (change (id_width _) with 3 in * || change (id_width _) with 8 in * );
    [ destruct (id_text 3 id) as [Hlen Hint]; [lia|lia|]
    | destruct (id_text 8 id) as [Hlen Hint]; [lia|lia|]
    | destruct (id_text 8 id) as [Hlen Hint]; [lia|lia|] ];
    change (Z.to_nat 3) with 3%nat; change (Z.to_nat 8) with 8%nat;
    cbn [app]; rewrite <- ?app_assoc; cbn [app]; rewrite <- ?app_assoc;
    unfold parse_frame; test_prefix;
    rewrite (id_field _ _ _ _ _ _ Hlen) by reflexivity;
    rewrite Hint; cbn [rbind];
    rewrite (dlc_field _ _ _ _ _ _ Hlen) by reflexivity; cbn [rbind];
    rewrite Hdc; cbn [rbind];
    first [ rewrite (Hdata _ _ 5 Hlen eq_refl)
          | rewrite (Hdata _ _ 10 Hlen eq_refl) ];
    reflexivity.
Qed.

(** X15.  A classical data frame is taken as its length digit and its
    hexadecimal text say, whether they agree or not.  Text after the
    announced data is ignored; and when the data stop early, on a byte
    boundary, the message has the announced length as its [dlc] and the
    shorter data.  The identifier is not held to 11 or 29 bits, the
    length digit may be 9, and the prefix [x] reads as [T] does. *)
Theorem recv_classic_data_lengths (p : N) (id : Z) (d : N) (bs : bytes)
    (tail : str) (t : Deadline) (rx : slcanBus) (rest : bytes) :
  In p (lit "tTx") ->
  0 <= id < 16 ^ id_width p ->
  (d < 10)%N ->
  forallb printable tail = true ->
  len bs = Z.of_N d \/ (len bs < Z.of_N d /\ tail = []) ->
  expired t = false ->
  _recv_internal t
    (with_buffer (line (classic_text p id d bs tail) ++ rest) rx)
  = (Ok (Some {| timestamp := wall_clock rx;
                 arbitration_id := id;
                 is_extended_id := negb (N.eqb p (ord "t"));
                 is_remote_frame := false;
                 is_fd := false;
                 bitrate_switch := false;
                 dlc := Z.of_N d;
                 data := bs;
                 channel := None |}, false),
     with_buffer rest rx).
Proof.
  intros Hp Hid Hd Htail Hcase Ht.
  assert (Hs : forallb printable (classic_text p id d bs tail) = true).
  { unfold classic_text. cbn [forallb].
    rewrite forallb_app. cbn [forallb]. rewrite forallb_app.
    unfold format_X.
    rewrite format_int_printable, upper_hex_printable, Htail,
      digit_char_printable by lia.
    cbv [lit list_ascii_of_string map] in Hp. cbn [In] in Hp.
    destruct Hp as [<-|[<-|[<-|[]]]]; reflexivity. }
  assert (Hbuf : _buffer (with_buffer (line (classic_text p id d bs tail)
                                       ++ rest) rx)
                 = map byte_of_N (classic_text p id d bs tail)
                   ++ x0d :: rest).
  { cbn. unfold line, LINE_TERMINATOR. now rewrite <- app_assoc. }
  unfold _recv_internal, bind.
  rewrite (_read_found t _ _ _ _ Ht Hbuf (printable_no_terminator _ Hs)
             eq_refl).
  rewrite (decode_printable _ [x0d] Hs).
  change (decode [x0d]) with (Ok [13%N]). cbn [rbind].
  unfold lift. rewrite (parse_classic_text p id d bs tail Hp Hid Hd Hcase).
  reflexivity.
Qed.

Lemma recv_classic_data_lengths_witness :
  _recv_internal (Polls 1)
    (with_buffer (line (classic_text (ord "x") 4294967295 9 [x01; x02] [])
                  ++ [x07]) sample_bus)
  = (Ok (Some {| timestamp := wall_clock sample_bus;
                 arbitration_id := 4294967295;
                 is_extended_id := true;
                 is_remote_frame := false;
                 is_fd := false;
                 bitrate_switch := false;
                 dlc := 9;
                 data := [x01; x02];
                 channel := None |}, false),
     with_buffer [x07] sample_bus).
Proof.
  refine (recv_classic_data_lengths (ord "x") 4294967295 9 [x01; x02] []
            (Polls 1) sample_bus [x07] _ _ _ _ _ _).
  - right. right. now left.
  - change (id_width (ord "x")) with 8. lia.
  - reflexivity.
  - reflexivity.
  - right. split; [reflexivity|reflexivity].
  - reflexivity.
Defined.

End DataLengths.


(* ===================================================================== *)
(** * Session commands *)
(* ===================================================================== *)

Section SessionCommands.

Ltac pick_code :=
  solve [ exists 0%N; split; [lia|reflexivity]
        | exists 1%N; split; [lia|reflexivity]
        | exists 2%N; split; [lia|reflexivity]
        | exists 3%N; split; [lia|reflexivity]
        | exists 4%N; split; [lia|reflexivity]
        | exists 5%N; split; [lia|reflexivity]
        | exists 6%N; split; [lia|reflexivity]
        | exists 7%N; split; [lia|reflexivity]
        | exists 8%N; split; [lia|reflexivity]
        | exists 9%N; split; [lia|reflexivity] ].

Lemma _BITRATES_codes (bitrate : Z) (code : str) :
  lookup bitrate _BITRATES = Some code ->
  (exists d, (d < 10)%N /\ code = [ord "S"; digit_char d]) /\
  (forall other, lookup other _BITRATES = Some code -> other = bitrate).
Proof.
  intro Hcode. unfold _BITRATES in *. cbn [lookup] in Hcode.
  repeat match type of Hcode with
         | (if ?x =? ?k then _ else _) = _ =>
             destruct (Z.eqb_spec x k);
             [ injection Hcode as <-; split;
               [ pick_code
               | intros other Ho; cbn [lookup] in Ho;
                 repeat match type of Ho with
                        | (if ?y =? ?j then _ else _) = _ =>
                            destruct (Z.eqb_spec y j);
                            [ first [ congruence
                                    | vm_compute in Ho; discriminate Ho ] | ]
                        end;
                 discriminate Ho ]
             | ]
         end.
  discriminate Hcode.
Qed.

(** X16.  [set_bitrate] on an open port: a bitrate that is not in the
    table raises [ValueError] and nothing is written, not even the close
    command; a bitrate of the table closes the channel, writes its code,
    [S] and one decimal digit, and opens the channel again in the mode
    of the bus.  No two bitrates share a code. *)
Theorem set_bitrate_commands (bitrate : Z) (b : slcanBus) :
  is_open (serialPortOrig b) = true ->
  match lookup bitrate _BITRATES with
  | None => set_bitrate bitrate b = (Raise ValueError, b)
  | Some code =>
      set_bitrate bitrate b
      = (Ok tt, emit (line (lit "C") ++ line code
                      ++ line (open_command (_listen_only b))) b) /\
      (exists d, (d < 10)%N /\ code = [ord "S"; digit_char d]) /\
      (forall other, lookup other _BITRATES = Some code -> other = bitrate)
  end.
Proof.
  intro Hopen.
  destruct (lookup bitrate _BITRATES) as [code|] eqn:Hcode.
  - split; [now apply set_bitrate_emit|].
    now apply _BITRATES_codes.
  - unfold set_bitrate. now rewrite Hcode.
Qed.

Lemma set_bitrate_commands_witness :
  (set_bitrate 250000 sample_bus
   = (Ok tt, emit (line (lit "C") ++ line (lit "S5") ++ line (lit "O"))
               sample_bus) /\
   (exists d, (d < 10)%N /\ lit "S5" = [ord "S"; digit_char d]) /\
   (forall other, lookup other _BITRATES = Some (lit "S5") ->
                  other = 250000)) /\
  set_bitrate 300000 sample_bus = (Raise ValueError, sample_bus).
Proof.
  split.
  - exact (set_bitrate_commands 250000 sample_bus eq_refl).
  - exact (set_bitrate_commands 300000 sample_bus eq_refl).
Defined.



Lemma four_fields (c : N) (f1 f2 f3 f4 : str) :
  len f1 = 4 -> len f2 = 4 -> len f3 = 4 -> len f4 = 4 ->
  len (c :: f1 ++ f2 ++ f3 ++ f4) = 17 /\
  map (fun i => slice (c :: f1 ++ f2 ++ f3 ++ f4) (1 + 4 * i) (5 + 4 * i))
    [0; 1; 2; 3]
  = [f1; f2; f3; f4].
Proof.
  intros H1 H2 H3 H4. split.
  - unfold len in *. cbn [length]. rewrite !length_app. lia.
  - assert (E1 : slice (c :: f1 ++ f2 ++ f3 ++ f4) (1 + 4 * 0) (5 + 4 * 0)
                 = f1).
    { change (c :: f1 ++ f2 ++ f3 ++ f4) with ([c] ++ f1 ++ f2 ++ f3 ++ f4).
      replace (1 + 4 * 0) with (len [c]) by reflexivity.
      replace (5 + 4 * 0) with (len [c] + len f1)
        by (rewrite H1; reflexivity).
      apply slice_middle. }
    assert (E2 : slice (c :: f1 ++ f2 ++ f3 ++ f4) (1 + 4 * 1) (5 + 4 * 1)
                 = f2).
    { replace (c :: f1 ++ f2 ++ f3 ++ f4)
        with ((c :: f1) ++ f2 ++ f3 ++ f4) by reflexivity.
      replace (1 + 4 * 1) with (len (c :: f1))
        by (unfold len in *; cbn [length]; lia).
      replace (5 + 4 * 1) with (len (c :: f1) + len f2)
        by (unfold len in *; cbn [length]; lia).
      apply slice_middle. }
    assert (E3 : slice (c :: f1 ++ f2 ++ f3 ++ f4) (1 + 4 * 2) (5 + 4 * 2)
                 = f3).
    { replace (c :: f1 ++ f2 ++ f3 ++ f4)
        with ((c :: f1 ++ f2) ++ f3 ++ f4)
        by (cbn [app]; now rewrite <- app_assoc).
      replace (1 + 4 * 2) with (len (c :: f1 ++ f2))
        by (unfold len in *; cbn [length]; rewrite length_app; lia).
      replace (5 + 4 * 2) with (len (c :: f1 ++ f2) + len f3)
        by (unfold len in *; cbn [length]; rewrite length_app; lia).
      apply slice_middle. }
    assert (E4 : slice (c :: f1 ++ f2 ++ f3 ++ f4) (1 + 4 * 3) (5 + 4 * 3)
                 = f4).
    { replace (c :: f1 ++ f2 ++ f3 ++ f4)
        with ((c :: f1 ++ f2 ++ f3) ++ f4 ++ [])
        by (cbn [app]; now rewrite app_nil_r, <- !app_assoc).
      replace (1 + 4 * 3) with (len (c :: f1 ++ f2 ++ f3))
        by (unfold len in *; cbn [length]; rewrite !length_app; lia).
      replace (5 + 4 * 3) with (len (c :: f1 ++ f2 ++ f3) + len f4)
        by (unfold len in *; cbn [length]; rewrite !length_app; lia).
      apply slice_middle. }
    cbn [map]. now rewrite E1, E2, E3, E4.
Qed.

Lemma timing_field (v : Z) :
  (0 <=? v) && (v <? 10000) = true ->
  len (format_d 4 v) = 4 /\ int (format_d 4 v) 10 = Ok v.
Proof.
  intro H. apply andb_prop in H. destruct H as [H0 H1].
  apply Z.leb_le in H0. apply Z.ltb_lt in H1.
  unfold format_d, len. split.
  - assert (R : 0 <= v < Z.of_N 10 ^ Z.of_nat 4)
      by (change (Z.of_N 10 ^ Z.of_nat 4) with 10000; lia).
    rewrite length_format_int; (reflexivity || lia || exact R).
  - apply int_format_int; try lia. right.
    change (Z.of_N 10 ^ Z.of_nat 4) with 10000. unfold max_str_digits. lia.
Qed.

Lemma timing_fields_read (c : N) (f1 f2 f3 f4 : str) (v1 v2 v3 v4 : Z) :
  len f1 = 4 /\ int f1 10 = Ok v1 ->
  len f2 = 4 /\ int f2 10 = Ok v2 ->
  len f3 = 4 /\ int f3 10 = Ok v3 ->
  len f4 = 4 /\ int f4 10 = Ok v4 ->
  len (c :: f1 ++ f2 ++ f3 ++ f4) = 17 /\
  timing_fields (c :: f1 ++ f2 ++ f3 ++ f4) = map Ok [v1; v2; v3; v4].
Proof.
  intros [L1 I1] [L2 I2] [L3 I3] [L4 I4].
  destruct (four_fields c f1 f2 f3 f4 L1 L2 L3 L4) as [Hl Hf].
  split; [exact Hl|].
  change (timing_fields (c :: f1 ++ f2 ++ f3 ++ f4))
    with (map (fun s => int s 10)
            (map (fun i => slice (c :: f1 ++ f2 ++ f3 ++ f4)
                             (1 + 4 * i) (5 + 4 * i)) [0; 1; 2; 3])).
  rewrite Hf. cbn [map]. now rewrite I1, I2, I3, I4.
Qed.

(** X18.  For an FD timing whose fields have at most four decimal digits
    the two timing commands have a fixed layout: [P] or [p] and sixteen
    digits, and each field of four digits reads back as the number it
    was written from, in the order sjw, tseg1, tseg2, brp.  They go out
    between the close command and the open command. *)
Theorem fd_timing_commands (timing : BitTimingFd) (b : slcanBus) :
  is_open (serialPortOrig b) = true ->
  four_digit_fields timing = true ->
  _set_bit_timing_fd timing b
  = (Ok tt, emit (line (lit "C") ++ line (nominal_command timing)
                  ++ line (data_command timing)
                  ++ line (open_command (_listen_only b))) b) /\
  len (nominal_command timing) = 17 /\
  len (data_command timing) = 17 /\
  timing_fields (nominal_command timing)
  = map Ok [nom_sjw timing; nom_tseg1 timing; nom_tseg2 timing;
            nom_brp timing] /\
  timing_fields (data_command timing)
  = map Ok [data_sjw timing; data_tseg1 timing; data_tseg2 timing;
            data_brp timing].
Proof.
  intros Hopen Hsmall.
  split; [now apply _set_bit_timing_fd_emit|].
  unfold four_digit_fields in Hsmall. cbn [forallb] in Hsmall.
  repeat (apply andb_prop in Hsmall;
          let H := fresh "F" in destruct Hsmall as [H Hsmall]).
  destruct (timing_fields_read (ord "P") _ _ _ _ _ _ _ _
              (timing_field _ F) (timing_field _ F0) (timing_field _ F1)
              (timing_field _ F2)) as [Hn Hnf].
  destruct (timing_fields_read (ord "p") _ _ _ _ _ _ _ _
              (timing_field _ F3) (timing_field _ F4) (timing_field _ F5)
              (timing_field _ F6)) as [Hd Hdf].
  now repeat split.
Qed.

Lemma fd_timing_commands_witness :
  _set_bit_timing_fd sample_timing_fd sample_bus
  = (Ok tt, emit (line (lit "C") ++ line (nominal_command sample_timing_fd)
                  ++ line (data_command sample_timing_fd)
                  ++ line (open_command (_listen_only sample_bus)))
              sample_bus) /\
  len (nominal_command sample_timing_fd) = 17 /\
  len (data_command sample_timing_fd) = 17 /\
  timing_fields (nominal_command sample_timing_fd)
  = map Ok [nom_sjw sample_timing_fd; nom_tseg1 sample_timing_fd;
            nom_tseg2 sample_timing_fd; nom_brp sample_timing_fd] /\
  timing_fields (data_command sample_timing_fd)
  = map Ok [data_sjw sample_timing_fd; data_tseg1 sample_timing_fd;
            data_tseg2 sample_timing_fd; data_brp sample_timing_fd].
Proof.
  exact (fd_timing_commands sample_timing_fd sample_bus eq_refl eq_refl).
Defined.

(** X19.  [flush] forgets what was buffered and what was waiting at the
    port: the next line that [_read] returns is the first line of what
    arrives afterwards.  Nothing is written. *)
Theorem flush_then_read (b : slcanBus) (seg : bytes) (segs : list bytes)
    (rest : bytes) (s : str) :
  is_open (serialPortOrig b) = true ->
  segments (concat (tl (incoming (serialPortOrig b)))) = (seg :: segs, rest) ->
  decode seg = Ok s ->
  exists b1 b2,
    flush b = (Ok tt, b1) /\
    stream b1 = concat (tl (incoming (serialPortOrig b))) /\
    _read Never b1 = (Ok (Some s), b2) /\
    written (serialPortOrig b2) = written (serialPortOrig b).
Proof.
  intros Hopen Hseg Hdec.
  set (b1 := with_port (set_incoming (tl (incoming (serialPortOrig b))))
               (with_buffer [] b)).
  assert (Hflush : flush b = (Ok tt, b1)).
  { unfold flush, bind, modify, error_check, port_reset_input_buffer.
    cbn. now rewrite Hopen. }
  destruct (_read_never b1 seg segs rest s) as (b2 & Hread & _ & Hw & _);
    [exact Hopen|exact Hseg|exact Hdec|].
  exists b1, b2. repeat split; assumption.
Qed.

Lemma flush_then_read_witness :
  exists b1 b2,
    flush (with_buffer (ascii_bytes "t12")
             (with_port (set_incoming [ascii_bytes "31AA" ++ [x0d];
                                       ascii_bytes "V10";
                                       ascii_bytes "13" ++ [x0d]])
                sample_bus))
    = (Ok tt, b1) /\
    stream b1 = ascii_bytes "V10" ++ ascii_bytes "13" ++ [x0d] /\
    _read Never b1 = (Ok (Some (lit "V1013" ++ [13%N])), b2) /\
    written (serialPortOrig b2) = [].
Proof.
  exact (flush_then_read
           (with_buffer (ascii_bytes "t12")
              (with_port (set_incoming [ascii_bytes "31AA" ++ [x0d];
                                        ascii_bytes "V10";
                                        ascii_bytes "13" ++ [x0d]])
                 sample_bus))
           (ascii_bytes "V1013" ++ [x0d]) [] [] (lit "V1013" ++ [13%N])
           eq_refl eq_refl eq_refl).
Defined.

(** X20.  A write timeout that the port refuses, a negative one that
    differs from the one in force, makes [send] raise the port's
    [ValueError] as it is: the frame is not written and the bus is as
    before. *)
Theorem send_refused_timeout (msg : Message) (d : Z) (b : slcanBus) :
  d < 0 ->
  write_timeout (serialPortOrig b) <> Some d ->
  send msg (Some d) b = (Raise ValueError, b).
Proof.
  intros Hd Hdiff. unfold send.
  unfold bind at 1. unfold gets at 1.
  destruct (timeout_eqb (Some d) (write_timeout (serialPortOrig b))) eqn:E.
  - apply timeout_eqb_eq in E. congruence.
  - cbn [negb]. unfold bind, port_set_write_timeout, raise.
    destruct (Z.ltb_spec d 0); [reflexivity|lia].
Qed.

Lemma send_refused_timeout_witness :
  send sample_message (Some (-1)) sample_bus = (Raise ValueError, sample_bus).
Proof.
  apply (send_refused_timeout sample_message (-1) sample_bus).
  - lia.
  - discriminate.
Defined.

End SessionCommands.
